(** * ESP UART network bridge (lib/WUI/espif.cpp)

    A shallow embedding of the operating-mode state machine, the transmit
    path, the scan session and the receive handlers of the ESP NIC, together
    with the properties of the bridge established on it.

    The static variables of espif.cpp become the fields of one [State]
    record; every function of the source that reads or writes them becomes a
    computation in a small state monad over that record.  What the source
    obtains from the hardware or from other modules (the result of a DMA
    transmission, random bytes, buffer allocation, the reply of the ESP, the
    return value of the IP stack) is read from oracles held in [Env], so that
    a statement quantified over all states covers every behaviour of those
    collaborators. *)

From Equations Require Import Equations.
From Stdlib Require Import ZArith List Bool Arith Lia.
Import ListNotations.
Local Open Scope Z_scope.

(** ** Error codes *)

(** [err_t] is lwIP's signed 8-bit error code. *)
Definition err_t : Type := Z.

Definition ERR_OK : err_t := 0.
Definition ERR_MEM : err_t := -1.
Definition ERR_IF : err_t := -12.

(** [HAL_StatusTypeDef] of the STM32 HAL. *)
Inductive HAL_StatusTypeDef : Type :=
  | HAL_OK
  | HAL_ERROR
  | HAL_BUSY
  | HAL_TIMEOUT.

(** espif_tx_buffer and espif_tx_raw return a [HAL_StatusTypeDef] where an
    [err_t] is declared: the enumerator's integer value is what callers
    compare against [ERR_OK]. *)
Definition hal_as_err (s : HAL_StatusTypeDef) : err_t :=
  match s with
  | HAL_OK => 0
  | HAL_ERROR => 1
  | HAL_BUSY => 2
  | HAL_TIMEOUT => 3
  end.

(** ** Operating mode *)

Inductive ESPIFOperatingMode : Type :=
  | ESPIF_UNINITIALIZED_MODE
  | ESPIF_WAIT_INIT
  | ESPIF_NEED_AP
  | ESPIF_CONNECTING_AP
  | ESPIF_RUNNING_MODE
  | ESPIF_SCANNING_MODE
  | ESPIF_WRONG_FW
  | ESPIF_FLASHING_ERROR_NOT_CONNECTED
  | ESPIF_FLASHING_ERROR_OTHER.

Definition mode_eq_dec (a b : ESPIFOperatingMode) : {a = b} + {a <> b}.
Proof. decide equality. Defined.

Module EspFwState.
Inductive t : Type :=
  | Unknown
  | NoEsp
  | NoFirmware
  | Ok
  | WrongVersion
  | Scanning
  | FlashingErrorNotConnected
  | FlashingErrorOther.
End EspFwState.

Module EspLinkState.
Inductive t : Type :=
  | Init
  | NoAp
  | Silent
  | Up.
End EspLinkState.

Inductive FlashResult : Type :=
  | success
  | not_connected
  | failure.

(** ** Messages *)

(** The message types espif.cpp sends or handles. *)
Inductive MessageType : Type :=
  | DEVICE_INFO_V2
  | CLIENTCONFIG_V2
  | PACKET_V2
  | SCAN_START
  | SCAN_STOP
  | SCAN_AP_CNT
  | SCAN_AP_INFO
  | SCAN_AP_GET.

(** [variable_byte] is the byte the source also reads under the names
    [version], [up], [ap_count] and [ap_index]; [size] holds the payload
    length as stored, that is after [htons]. *)
Record Header : Type := {
  type : MessageType;
  variable_byte : Z;
  size : Z
}.

Record MessagePrelude : Type := {
  intron : list Z;
  header : Header;
  data_checksum : Z
}.

Definition version (h : Header) : Z := variable_byte h.
Definition ap_count_of (h : Header) : Z := variable_byte h.
Definition ap_index_of (h : Header) : Z := variable_byte h.
(** [msg.header.up] is passed where a [bool] is expected. *)
Definition up (h : Header) : bool := negb (variable_byte h =? 0).

(** Byte swaps of a little-endian host. *)
Definition htons (x : Z) : Z :=
  Z.lor (Z.shiftl (Z.land x 255) 8) (Z.land (Z.shiftr x 8) 255).

Definition htonl (x : Z) : Z :=
  Z.lor (Z.shiftl (Z.land x 255) 24)
    (Z.lor (Z.shiftl (Z.land (Z.shiftr x 8) 255) 16)
       (Z.lor (Z.shiftl (Z.land (Z.shiftr x 16) 255) 8)
          (Z.land (Z.shiftr x 24) 255))).

(** A pbuf chain is the list of the payloads of its segments; [nullptr] is
    the empty chain. *)
Definition pbuf : Type := list (list Z).

Definition tot_len (p : pbuf) : Z :=
  fold_right (fun seg acc => Z.of_nat (length seg) + acc) 0 p.

(** What a call of HAL_UART_Transmit_DMA is given: the message prelude
    ([tx_message], sent as one block) or the payload of one segment. *)
Inductive TxData : Type :=
  | TxPrelude (m : MessagePrelude)
  | TxSegment (payload : list Z).

Module APInfo.
Record t : Type := {
  ssid : list Z;
  requires_password : bool
}.
End APInfo.

Module ScanData.
Record t : Type := {
  is_running : bool;
  prescan_op_mode : ESPIFOperatingMode;
  ap_count : Z;
  ap_index : Z
}.
Definition SYNC_EVENT_TIMEOUT : Z := 10.
End ScanData.

(** The fields of lwIP's [netif] that espif.cpp writes. *)
Record netif : Type := {
  hwaddr : list Z;
  hwaddr_len : Z
}.

Definition ETHARP_HWADDR_LEN : Z := 6.

(** Calls into the IP stack, in the order they are made. *)
Inductive NetifCall : Type :=
  | netifapi_netif_set_link_up
  | netifapi_netif_set_link_down
  | netif_input (p : pbuf).

(** ** The receive parser object *)

(** Modelled from the spec: the cursor of esp::RxParserBase
    (esp_protocol/parser.hpp is not among the sources): searching for the
    intron, reading the header, reading the payload, reading the checksum. *)
Inductive RxCursor : Type :=
  | SearchingIntron
  | ReadingHeader
  | ReadingPayload
  | ReadingChecksum.

Record UartRxParser : Type := {
  cursor : RxCursor;
  checksum_valid : bool;
  msg : MessagePrelude;
  crc : Z;
  buffer : list Z;
  packet_buff_head : option pbuf;
  packet_buff_curr : option nat;
  packet_buff_read : Z
}.

(** ** Collaborators *)

Record Env : Type := {
  (** result of the n-th call of HAL_UART_Transmit_DMA *)
  HAL_UART_Transmit_DMA : nat -> HAL_StatusTypeDef;
  (** value of the n-th call of rand_u *)
  rand_u : nat -> Z;
  (** whether the n-th call of pbuf_alloc returns a buffer *)
  pbuf_alloc_ok : nat -> bool;
  (** what the receive task puts into ap_info_queue while get_ap_info waits
      for the n-th time *)
  ap_info_arrival : nat -> option APInfo.t;
  (** return value of netif->input on the n-th call into the IP stack *)
  netif_input_result : nat -> err_t;
  (** whether a compare_exchange_weak attempted after n transmissions fails
      although the value compared equal *)
  cas_weak_fails : nat -> bool;
  (** common/crc32.h *)
  crc32_calc_ex : Z -> list Z -> Z;
  (** esp_protocol/messages.hpp: the enumerators' values and the protocol
      version *)
  message_type_code : MessageType -> Z;
  (** data_exchange.hpp: the APInfo read out of the small buffer *)
  ap_info_of_bytes : list Z -> APInfo.t;
  REQUIRED_PROTOCOL_VERSION : Z
}.

(** ** The static state of espif.cpp *)

Record State : Type := {
  env : Env;
  (* NIC state *)
  esp_operating_mode : ESPIFOperatingMode;
  associated : bool;
  active_esp_netif : netif;
  init_countdown : Z;
  seen_intron : bool;
  seen_rx_packet : bool;
  (* UART *)
  esp_detected : bool;
  esp_was_ok : bool;
  tx_message : MessagePrelude;
  scan : ScanData.t;
  ap_info_queue : option APInfo.t;
  uart_rx_parser : UartRxParser;
  (* what the bridge did to its collaborators *)
  uart_tx_log : list (TxData * HAL_StatusTypeDef);
  netif_log : list NetifCall;
  rand_calls : nat;
  alloc_calls : nat;
  queue_waits : nat;
  esp_rst_pulses : nat
}.

Definition set_esp_operating_mode (v : ESPIFOperatingMode) (st : State)
  : State :=
  Build_State (env st) v (associated st) (active_esp_netif st)
    (init_countdown st) (seen_intron st) (seen_rx_packet st) (esp_detected st)
    (esp_was_ok st) (tx_message st) (scan st) (ap_info_queue st)
    (uart_rx_parser st) (uart_tx_log st) (netif_log st) (rand_calls st)
    (alloc_calls st) (queue_waits st) (esp_rst_pulses st).

Definition set_associated (v : bool) (st : State) : State :=
  Build_State (env st) (esp_operating_mode st) v (active_esp_netif st)
    (init_countdown st) (seen_intron st) (seen_rx_packet st) (esp_detected st)
    (esp_was_ok st) (tx_message st) (scan st) (ap_info_queue st)
    (uart_rx_parser st) (uart_tx_log st) (netif_log st) (rand_calls st)
    (alloc_calls st) (queue_waits st) (esp_rst_pulses st).

Definition set_active_esp_netif (v : netif) (st : State) : State :=
  Build_State (env st) (esp_operating_mode st) (associated st) v
    (init_countdown st) (seen_intron st) (seen_rx_packet st) (esp_detected st)
    (esp_was_ok st) (tx_message st) (scan st) (ap_info_queue st)
    (uart_rx_parser st) (uart_tx_log st) (netif_log st) (rand_calls st)
    (alloc_calls st) (queue_waits st) (esp_rst_pulses st).

Definition set_init_countdown (v : Z) (st : State) : State :=
  Build_State (env st) (esp_operating_mode st) (associated st)
    (active_esp_netif st) v (seen_intron st) (seen_rx_packet st)
    (esp_detected st) (esp_was_ok st) (tx_message st) (scan st)
    (ap_info_queue st) (uart_rx_parser st) (uart_tx_log st) (netif_log st)
    (rand_calls st) (alloc_calls st) (queue_waits st) (esp_rst_pulses st).

Definition set_seen_intron (v : bool) (st : State) : State :=
  Build_State (env st) (esp_operating_mode st) (associated st)
    (active_esp_netif st) (init_countdown st) v (seen_rx_packet st)
    (esp_detected st) (esp_was_ok st) (tx_message st) (scan st)
    (ap_info_queue st) (uart_rx_parser st) (uart_tx_log st) (netif_log st)
    (rand_calls st) (alloc_calls st) (queue_waits st) (esp_rst_pulses st).

Definition set_seen_rx_packet (v : bool) (st : State) : State :=
  Build_State (env st) (esp_operating_mode st) (associated st)
    (active_esp_netif st) (init_countdown st) (seen_intron st) v
    (esp_detected st) (esp_was_ok st) (tx_message st) (scan st)
    (ap_info_queue st) (uart_rx_parser st) (uart_tx_log st) (netif_log st)
    (rand_calls st) (alloc_calls st) (queue_waits st) (esp_rst_pulses st).

Definition set_esp_detected (v : bool) (st : State) : State :=
  Build_State (env st) (esp_operating_mode st) (associated st)
    (active_esp_netif st) (init_countdown st) (seen_intron st)
    (seen_rx_packet st) v (esp_was_ok st) (tx_message st) (scan st)
    (ap_info_queue st) (uart_rx_parser st) (uart_tx_log st) (netif_log st)
    (rand_calls st) (alloc_calls st) (queue_waits st) (esp_rst_pulses st).

Definition set_esp_was_ok (v : bool) (st : State) : State :=
  Build_State (env st) (esp_operating_mode st) (associated st)
    (active_esp_netif st) (init_countdown st) (seen_intron st)
    (seen_rx_packet st) (esp_detected st) v (tx_message st) (scan st)
    (ap_info_queue st) (uart_rx_parser st) (uart_tx_log st) (netif_log st)
    (rand_calls st) (alloc_calls st) (queue_waits st) (esp_rst_pulses st).

Definition set_tx_message (v : MessagePrelude) (st : State) : State :=
  Build_State (env st) (esp_operating_mode st) (associated st)
    (active_esp_netif st) (init_countdown st) (seen_intron st)
    (seen_rx_packet st) (esp_detected st) (esp_was_ok st) v (scan st)
    (ap_info_queue st) (uart_rx_parser st) (uart_tx_log st) (netif_log st)
    (rand_calls st) (alloc_calls st) (queue_waits st) (esp_rst_pulses st).

Definition set_scan (v : ScanData.t) (st : State) : State :=
  Build_State (env st) (esp_operating_mode st) (associated st)
    (active_esp_netif st) (init_countdown st) (seen_intron st)
    (seen_rx_packet st) (esp_detected st) (esp_was_ok st) (tx_message st) v
    (ap_info_queue st) (uart_rx_parser st) (uart_tx_log st) (netif_log st)
    (rand_calls st) (alloc_calls st) (queue_waits st) (esp_rst_pulses st).

Definition set_ap_info_queue (v : option APInfo.t) (st : State) : State :=
  Build_State (env st) (esp_operating_mode st) (associated st)
    (active_esp_netif st) (init_countdown st) (seen_intron st)
    (seen_rx_packet st) (esp_detected st) (esp_was_ok st) (tx_message st)
    (scan st) v (uart_rx_parser st) (uart_tx_log st) (netif_log st)
    (rand_calls st) (alloc_calls st) (queue_waits st) (esp_rst_pulses st).

Definition set_uart_rx_parser (v : UartRxParser) (st : State) : State :=
  Build_State (env st) (esp_operating_mode st) (associated st)
    (active_esp_netif st) (init_countdown st) (seen_intron st)
    (seen_rx_packet st) (esp_detected st) (esp_was_ok st) (tx_message st)
    (scan st) (ap_info_queue st) v (uart_tx_log st) (netif_log st)
    (rand_calls st) (alloc_calls st) (queue_waits st) (esp_rst_pulses st).

Definition set_uart_tx_log (v : list (TxData * HAL_StatusTypeDef))
    (st : State) : State :=
  Build_State (env st) (esp_operating_mode st) (associated st)
    (active_esp_netif st) (init_countdown st) (seen_intron st)
    (seen_rx_packet st) (esp_detected st) (esp_was_ok st) (tx_message st)
    (scan st) (ap_info_queue st) (uart_rx_parser st) v (netif_log st)
    (rand_calls st) (alloc_calls st) (queue_waits st) (esp_rst_pulses st).

Definition set_netif_log (v : list NetifCall) (st : State) : State :=
  Build_State (env st) (esp_operating_mode st) (associated st)
    (active_esp_netif st) (init_countdown st) (seen_intron st)
    (seen_rx_packet st) (esp_detected st) (esp_was_ok st) (tx_message st)
    (scan st) (ap_info_queue st) (uart_rx_parser st) (uart_tx_log st) v
    (rand_calls st) (alloc_calls st) (queue_waits st) (esp_rst_pulses st).

Definition set_rand_calls (v : nat) (st : State) : State :=
  Build_State (env st) (esp_operating_mode st) (associated st)
    (active_esp_netif st) (init_countdown st) (seen_intron st)
    (seen_rx_packet st) (esp_detected st) (esp_was_ok st) (tx_message st)
    (scan st) (ap_info_queue st) (uart_rx_parser st) (uart_tx_log st)
    (netif_log st) v (alloc_calls st) (queue_waits st) (esp_rst_pulses st).

Definition set_alloc_calls (v : nat) (st : State) : State :=
  Build_State (env st) (esp_operating_mode st) (associated st)
    (active_esp_netif st) (init_countdown st) (seen_intron st)
    (seen_rx_packet st) (esp_detected st) (esp_was_ok st) (tx_message st)
    (scan st) (ap_info_queue st) (uart_rx_parser st) (uart_tx_log st)
    (netif_log st) (rand_calls st) v (queue_waits st) (esp_rst_pulses st).

Definition set_queue_waits (v : nat) (st : State) : State :=
  Build_State (env st) (esp_operating_mode st) (associated st)
    (active_esp_netif st) (init_countdown st) (seen_intron st)
    (seen_rx_packet st) (esp_detected st) (esp_was_ok st) (tx_message st)
    (scan st) (ap_info_queue st) (uart_rx_parser st) (uart_tx_log st)
    (netif_log st) (rand_calls st) (alloc_calls st) v (esp_rst_pulses st).

Definition set_esp_rst_pulses (v : nat) (st : State) : State :=
  Build_State (env st) (esp_operating_mode st) (associated st)
    (active_esp_netif st) (init_countdown st) (seen_intron st)
    (seen_rx_packet st) (esp_detected st) (esp_was_ok st) (tx_message st)
    (scan st) (ap_info_queue st) (uart_rx_parser st) (uart_tx_log st)
    (netif_log st) (rand_calls st) (alloc_calls st) (queue_waits st) v.


Definition set_scan_is_running (v : bool) (s : ScanData.t) : ScanData.t :=
  ScanData.Build_t v (ScanData.prescan_op_mode s) (ScanData.ap_count s)
    (ScanData.ap_index s).

Definition set_scan_prescan_op_mode (v : ESPIFOperatingMode) (s : ScanData.t)
  : ScanData.t :=
  ScanData.Build_t (ScanData.is_running s) v (ScanData.ap_count s)
    (ScanData.ap_index s).

Definition set_scan_ap_count (v : Z) (s : ScanData.t) : ScanData.t :=
  ScanData.Build_t (ScanData.is_running s) (ScanData.prescan_op_mode s) v
    (ScanData.ap_index s).

Definition set_scan_ap_index (v : Z) (s : ScanData.t) : ScanData.t :=
  ScanData.Build_t (ScanData.is_running s) (ScanData.prescan_op_mode s)
    (ScanData.ap_count s) v.

Definition set_intron (v : list Z) (m : MessagePrelude) : MessagePrelude :=
  Build_MessagePrelude v (header m) (data_checksum m).

Definition set_cursor (v : RxCursor) (p : UartRxParser) : UartRxParser :=
  Build_UartRxParser v (checksum_valid p) (msg p) (crc p) (buffer p)
    (packet_buff_head p) (packet_buff_curr p) (packet_buff_read p).

Definition set_packet_buff_head (v : option pbuf) (p : UartRxParser)
  : UartRxParser :=
  Build_UartRxParser (cursor p) (checksum_valid p) (msg p) (crc p) (buffer p)
    v (packet_buff_curr p) (packet_buff_read p).

Definition set_packet_buff_curr (v : option nat) (p : UartRxParser)
  : UartRxParser :=
  Build_UartRxParser (cursor p) (checksum_valid p) (msg p) (crc p) (buffer p)
    (packet_buff_head p) v (packet_buff_read p).

Definition set_packet_buff_read (v : Z) (p : UartRxParser) : UartRxParser :=
  Build_UartRxParser (cursor p) (checksum_valid p) (msg p) (crc p) (buffer p)
    (packet_buff_head p) (packet_buff_curr p) v.

(** ** Computations over the static state *)

Definition M (A : Type) : Type := State -> A * State.

Definition ret {A : Type} (a : A) : M A := fun st => (a, st).

Definition bind {A B : Type} (m : M A) (k : A -> M B) : M B :=
  fun st => let (a, st') := m st in k a st'.

Definition load {A : Type} (f : State -> A) : M A := fun st => (f st, st).

Definition store (f : State -> State) : M unit := fun st => (tt, f st).

Declare Scope espif_scope.
Delimit Scope espif_scope with espif.

Notation "x <- m ;; k" := (bind m (fun x => k))
  (at level 61, m at next level, right associativity) : espif_scope.
Notation "m ;; k" := (bind m (fun _ => k))
  (at level 61, right associativity) : espif_scope.

Local Open Scope espif_scope.

(** [when c m] is [if (c) { m }]. *)
Definition when (c : bool) (m : M unit) : M unit := if c then m else ret tt.

(** *** Atomics *)

Definition exchange_esp_operating_mode (v : ESPIFOperatingMode)
  : M ESPIFOperatingMode :=
  fun st => (esp_operating_mode st, set_esp_operating_mode v st).

Definition exchange_associated (v : bool) : M bool :=
  fun st => (associated st, set_associated v st).

Definition exchange_seen_intron (v : bool) : M bool :=
  fun st => (seen_intron st, set_seen_intron v st).

Definition exchange_seen_rx_packet (v : bool) : M bool :=
  fun st => (seen_rx_packet st, set_seen_rx_packet v st).

(** compare_exchange_strong on [esp_operating_mode]: succeeds exactly when
    the mode equals [expected]. *)
Definition compare_exchange_strong (expected desired : ESPIFOperatingMode)
  : M bool :=
  fun st =>
    if mode_eq_dec (esp_operating_mode st) expected
    then (true, set_esp_operating_mode desired st)
    else (false, st).

(** compare_exchange_weak on [esp_operating_mode]: as the strong one, except
    that it is allowed to fail although the mode equals [expected]; whether
    it does is read from the environment. *)
Definition compare_exchange_weak (expected desired : ESPIFOperatingMode)
  : M bool :=
  fun st =>
    if mode_eq_dec (esp_operating_mode st) expected
    then if cas_weak_fails (env st) (length (uart_tx_log st))
         then (false, st)
         else (true, set_esp_operating_mode desired st)
    else (false, st).

(** *** Mode predicates *)

Definition is_running (mode : ESPIFOperatingMode) : bool :=
  match mode with
  | ESPIF_UNINITIALIZED_MODE
  | ESPIF_FLASHING_ERROR_NOT_CONNECTED
  | ESPIF_FLASHING_ERROR_OTHER
  | ESPIF_WRONG_FW
  | ESPIF_SCANNING_MODE => false
  | ESPIF_WAIT_INIT
  | ESPIF_NEED_AP
  | ESPIF_RUNNING_MODE
  | ESPIF_CONNECTING_AP => true
  end.

Definition can_recieve_data (mode : ESPIFOperatingMode) : bool :=
  match mode with
  | ESPIF_UNINITIALIZED_MODE
  | ESPIF_FLASHING_ERROR_OTHER
  | ESPIF_WRONG_FW => false
  | ESPIF_FLASHING_ERROR_NOT_CONNECTED
  | ESPIF_WAIT_INIT
  | ESPIF_NEED_AP
  | ESPIF_RUNNING_MODE
  | ESPIF_CONNECTING_AP
  | ESPIF_SCANNING_MODE => true
  end.

(** *** Transmit path *)

(** The header as the four bytes [message_checksum] reads through
    [reinterpret_cast]: type, variable byte, and the stored size low byte
    first. *)
Definition header_bytes (E : Env) (h : Header) : list Z :=
  [message_type_code E (type h); variable_byte h;
   Z.land (size h) 255; Z.land (Z.shiftr (size h) 8) 255].

Definition message_checksum (E : Env) (m : MessagePrelude) (p : pbuf) : Z :=
  fold_left (fun crc seg => crc32_calc_ex E crc seg) p
    (crc32_calc_ex E (crc32_calc_ex E 0 (intron m))
       (header_bytes E (header m))).

(** espif_tx_buffer: one DMA transmission.  Its result is the collaborator's;
    the call is recorded in [uart_tx_log].  The hand-over of the completion
    semaphore between this function and the interrupt is the subject of
    [TxHandshake] below; here the call is taken as a whole, from the claim of
    the semaphore to its release. *)
Definition espif_tx_buffer (data : TxData) : M HAL_StatusTypeDef :=
  fun st =>
    let tx_result := HAL_UART_Transmit_DMA (env st) (length (uart_tx_log st)) in
    (tx_result, set_uart_tx_log (uart_tx_log st ++ [(data, tx_result)]) st).

Definition is_HAL_OK (s : HAL_StatusTypeDef) : bool :=
  match s with HAL_OK => true | _ => false end.

(** The [while (tx_pbuf != nullptr)] loop of espif_tx_raw. *)
Fixpoint espif_tx_segments (tx_pbuf : pbuf) (tx_result : HAL_StatusTypeDef)
  : M HAL_StatusTypeDef :=
  match tx_pbuf with
  | [] => ret tx_result
  | payload :: next =>
      tx_result <- espif_tx_buffer (TxSegment payload) ;;
      if is_HAL_OK tx_result
      then espif_tx_segments next tx_result
      else ret tx_result
  end.

(** The four assignments to [tx_message] at the head of espif_tx_raw. *)
Definition fill_prelude (E : Env) (m : MessagePrelude)
    (message_type : MessageType) (message_byte : Z) (p : pbuf)
  : MessagePrelude :=
  let size := (tot_len p) mod 65536 in
  let m' := {| intron := intron m;
               header := {| type := message_type;
                            variable_byte := message_byte;
                            size := htons size |};
               data_checksum := data_checksum m |} in
  {| intron := intron m';
     header := header m';
     data_checksum := htonl (message_checksum E m' p) |}.

(** espif_tx_raw, under [uart_write_mutex]; the metric it records is left
    out. *)
Definition espif_tx_raw (message_type : MessageType) (message_byte : Z)
    (p : pbuf) : M err_t :=
  store (fun st =>
    set_tx_message
      (fill_prelude (env st) (tx_message st) message_type message_byte p) st) ;;
  m <- load tx_message ;;
  tx_result <- espif_tx_buffer (TxPrelude m) ;;
  if is_HAL_OK tx_result
  then tx_result <- espif_tx_segments p tx_result ;; ret (hal_as_err tx_result)
  else ret (hal_as_err tx_result).

(** [rand_u()] stored into a [uint8_t]. *)
Definition rand_u8 : M Z :=
  fun st =>
    (rand_u (env st) (rand_calls st) mod 256,
     set_rand_calls (S (rand_calls st)) st).

Fixpoint rand_bytes (n : nat) : M (list Z) :=
  match n with
  | O => ret []
  | S n' => b <- rand_u8 ;; bs <- rand_bytes n' ;; ret (b :: bs)
  end.

Definition pbuf_alloc : M bool :=
  fun st =>
    (pbuf_alloc_ok (env st) (alloc_calls st),
     set_alloc_calls (S (alloc_calls st)) st).

(** [strlen] stored into a [uint8_t]. *)
Definition strlen8 (s : list Z) : Z := Z.of_nat (length s) mod 256.

Definition clientconfig_payload (new_intron ssid pass : list Z) : list Z :=
  let ssid_len := strlen8 ssid in
  let pass_len := strlen8 pass in
  new_intron ++ [ssid_len] ++ firstn (Z.to_nat ssid_len) ssid
    ++ [pass_len] ++ firstn (Z.to_nat pass_len) pass.

Definition espif_tx_msg_clientconfig_v2 (ssid pass : list Z) : M err_t :=
  running <- load (fun st => ScanData.is_running (scan st)) ;;
  if running then ret ERR_IF
  else
    old <- load (fun st => intron (tx_message st)) ;;
    tail <- rand_bytes 4 ;;
    let new_intron := [nth 0 old 0; nth 1 old 0] ++ tail in
    allocated <- pbuf_alloc ;;
    if negb allocated then ret ERR_MEM
    else
      err <- espif_tx_raw CLIENTCONFIG_V2 0
               [clientconfig_payload new_intron ssid pass] ;;
      if err =? ERR_OK
      then
        store (fun st =>
          set_tx_message (set_intron new_intron (tx_message st)) st) ;;
        ret err
      else ret err.

Definition espif_tx_msg_packet (p : pbuf) : M err_t :=
  espif_tx_raw PACKET_V2 1 p.

(** *** Link state *)

Definition espif_link : M bool := load associated.

Definition netif_call (c : NetifCall) : M unit :=
  store (fun st => set_netif_log (netif_log st ++ [c]) st).

Definition process_link_change (link_up : bool) : M unit :=
  if link_up then
    running <- load (fun st => ScanData.is_running (scan st)) ;;
    (* Don't change the esp mode if the scan is running *)
    when (negb running) (store (set_esp_operating_mode ESPIF_RUNNING_MODE)) ;;
    was <- exchange_associated true ;;
    when (negb was) (netif_call netifapi_netif_set_link_up)
  else
    was <- exchange_associated false ;;
    when was (netif_call netifapi_netif_set_link_down).

(** *** Scan session (namespace espif::scan) *)

Definition exchange_scan_is_running (v : bool) : M bool :=
  fun st =>
    (ScanData.is_running (scan st),
     set_scan (set_scan_is_running v (scan st)) st).

(** freertos::Queue<APInfo, 1>::try_receive with a timeout: an item already
    queued is taken at once; otherwise the caller gets what arrives within
    the timeout, if anything. *)
Definition ap_info_queue_try_receive : M (option APInfo.t) :=
  fun st =>
    let n := queue_waits st in
    let st := set_queue_waits (S n) st in
    match ap_info_queue st with
    | Some info => (Some info, set_ap_info_queue None st)
    | None => (ap_info_arrival (env st) n, st)
    end.

(** Modelled from the spec: freertos::Queue::send (freertos/queue.hpp is not
    among the sources): a reply arriving when the single slot is already
    full is dropped. *)
Definition ap_info_queue_send (info : APInfo.t) : M unit :=
  store (fun st =>
    match ap_info_queue st with
    | Some _ => st
    | None => set_ap_info_queue (Some info) st
    end).

Module scan.

Definition start : M err_t :=
  (* TODO: Validate that we can start a scan *)
  _ <- exchange_scan_is_running true ;;
  err <- espif_tx_raw SCAN_START 0 [] ;;
  if err =? ERR_OK then
    old <- exchange_esp_operating_mode ESPIF_SCANNING_MODE ;;
    store (fun st => set_scan (set_scan_prescan_op_mode old (scan st)) st) ;;
    store (fun st => set_scan (set_scan_ap_count 0 (scan st)) st) ;;
    ret err
  else
    _ <- exchange_scan_is_running false ;;
    ret err.

Definition is_running : M bool :=
  load (fun st => ScanData.is_running (scan st)).

Definition stop : M err_t :=
  running <- load (fun st => ScanData.is_running (scan st)) ;;
  if negb running then ret ERR_IF
  else
    err <- espif_tx_raw SCAN_STOP 0 [] ;;
    if err =? ERR_OK then
      _ <- exchange_scan_is_running false ;;
      prescan <- load (fun st => ScanData.prescan_op_mode (scan st)) ;;
      _ <- compare_exchange_weak ESPIF_SCANNING_MODE prescan ;;
      ret err
    else ret err.

Definition get_ap_count : M Z :=
  load (fun st => ScanData.ap_count (scan st)).

(** The [while (tries >= 0)] loop of get_ap_info.  The result carries the
    error code and, when a reply was received, the APInfo copied to the
    caller's [buffer] and [needs_password]. *)
Equations get_ap_info_loop (index : Z) (tries : Z) (last_error : err_t)
    (st : State) : (err_t * option APInfo.t) * State
    by wf (Z.to_nat (tries + 1)) lt :=
  get_ap_info_loop index tries last_error st with Z_le_dec 0 tries => {
    | left _ =>
        let tries' := tries - 1 in
        let (err, st1) := espif_tx_raw SCAN_AP_GET index [] st in
        if negb (err =? ERR_OK)
        then get_ap_info_loop index tries' err st1
        else
          let (reply, st2) := ap_info_queue_try_receive st1 in
          match reply with
          | Some info => ((ERR_OK, Some info), st2)
          | None => get_ap_info_loop index tries' ERR_IF st2
          end
    | right _ => ((last_error, None), st)
  }.
Solve All Obligations with (intros; lia).

Definition get_ap_info (index : Z) : M (err_t * option APInfo.t) :=
  let tries := 4 in
  store (fun st => set_scan (set_scan_ap_index index (scan st)) st) ;;
  let last_error := ERR_OK in
  get_ap_info_loop index tries last_error.

End scan.

(** *** Receive handlers (struct UartRxParser) *)

Definition rx (f : UartRxParser -> UartRxParser) : M unit :=
  store (fun st => set_uart_rx_parser (f (uart_rx_parser st)) st).

Definition validate_checksum : M bool :=
  valid <- load (fun st => checksum_valid (uart_rx_parser st)) ;;
  when valid (store (set_seen_intron true)) ;;
  ret valid.

Definition process_scan_ap_count : M unit :=
  valid <- validate_checksum ;;
  when valid
    (store (fun st =>
       set_scan
         (set_scan_ap_count (ap_count_of (header (msg (uart_rx_parser st))))
            (scan st)) st)).

Definition process_scan_ap_info : M unit :=
  valid <- validate_checksum ;;
  if valid then
    same <- load (fun st =>
              ap_index_of (header (msg (uart_rx_parser st)))
                =? ScanData.ap_index (scan st)) ;;
    if same then
      info <- load (fun st =>
                ap_info_of_bytes (env st) (buffer (uart_rx_parser st))) ;;
      ap_info_queue_send info
    else ret tt
  else ret tt.

(** Only logs (the [bsod] is compiled in debug builds alone). *)
Definition process_invalid_message : M unit := ret tt.

(** [memcpy(netif->hwaddr, buffer.data(), ETHARP_HWADDR_LEN)]. *)
Definition hwaddr_of_buffer (b : list Z) : list Z :=
  map (fun i => nth i b 0) (seq 0 (Z.to_nat ETHARP_HWADDR_LEN)).

Definition process_esp_device_info : M unit :=
  (* calling process_checksum to at least print an error *)
  _ <- validate_checksum ;;
  store (fun st =>
    set_active_esp_netif
      {| hwaddr := hwaddr_of_buffer (buffer (uart_rx_parser st));
         hwaddr_len := ETHARP_HWADDR_LEN |} st) ;;
  swapped <- compare_exchange_strong ESPIF_WAIT_INIT ESPIF_NEED_AP ;;
  if swapped then
    mismatch <- load (fun st =>
                  negb (version (header (msg (uart_rx_parser st)))
                          =? REQUIRED_PROTOCOL_VERSION (env st))) ;;
    if mismatch then store (set_esp_operating_mode ESPIF_WRONG_FW)
    else
      store (set_esp_operating_mode ESPIF_NEED_AP) ;;
      store (set_esp_was_ok true)
  else ret tt.

(** [netif->input(packet_buff_head, netif)]. *)
Definition netif_input_call (p : option pbuf) : M err_t :=
  fun st =>
    let chain := match p with Some c => c | None => [] end in
    (netif_input_result (env st) (length (netif_log st)),
     set_netif_log (netif_log st ++ [netif_input chain]) st).

(** [packet_buff_curr->next] for a [packet_buff_curr] that points at
    segment [i] of the chain, the segments being numbered from the head;
    whether it does is for the caller to see. *)
Definition next_segment (head : option pbuf) (curr : option nat) : option nat :=
  match head, curr with
  | Some chain, Some i =>
      if (S i <? length chain)%nat then Some (S i) else None
  | _, _ => None
  end.

(** process_packet, its first statement done. *)
Definition process_packet_from_next : M unit :=
  rx (fun p =>
        set_packet_buff_read 0
          (set_packet_buff_curr
             (next_segment (packet_buff_head p) (packet_buff_curr p)) p)) ;;
  valid <- validate_checksum ;;
  if valid then
    link_up <- load (fun st => up (header (msg (uart_rx_parser st)))) ;;
    process_link_change link_up ;;
    head <- load (fun st => packet_buff_head (uart_rx_parser st)) ;;
    err <- netif_input_call head ;;
    if negb (err =? ERR_OK) then ret tt
    else
      store (set_seen_rx_packet true) ;;
      rx (set_packet_buff_head None)
  else ret tt.

(** process_packet.  Its first statement reads [packet_buff_curr->next]
    without a test.  With a null [packet_buff_curr], or one that points at
    no segment of the chain, that read is undefined: [None]. *)
Definition process_packet (st : State) : option (unit * State) :=
  let p := uart_rx_parser st in
  match packet_buff_head p, packet_buff_curr p with
  | Some chain, Some i =>
      match nth_error chain i with
      | Some _ => Some (process_packet_from_next st)
      | None => None
      end
  | _, _ => None
  end.

(** Modelled from the spec: esp::RxParserBase::reset
    (esp_protocol/parser.hpp is not among the sources): the parser returns
    to searching for the intron. *)
Definition uart_rx_parser_reset : M unit := rx (set_cursor SearchingIntron).

(** *** Commands *)

Definition hard_reset_device : M unit :=
  store (fun st => set_esp_rst_pulses (S (esp_rst_pulses st)) st) ;;
  store (set_esp_detected false).

Definition force_down : M unit := process_link_change false.

(** [for (uint i = 2; i < tx_message.intron.size(); i++)
      tx_message.intron.at(i) = i - 2]. *)
Definition reset_intron : M unit :=
  store (fun st =>
    let old := intron (tx_message st) in
    set_tx_message
      (set_intron [nth 0 old 0; nth 1 old 0; 0; 1; 2; 3] (tx_message st)) st).

Definition espif_reset_connection : M unit :=
  _ <- exchange_esp_operating_mode ESPIF_NEED_AP ;;
  process_link_change false.

Definition espif_join_ap (ssid pass : list Z) : M err_t :=
  mode <- load esp_operating_mode ;;
  if negb (is_running mode) then ret ERR_IF
  else
    err <- espif_tx_msg_clientconfig_v2 ssid pass ;;
    when (err =? ERR_OK) (store (set_esp_operating_mode ESPIF_CONNECTING_AP)) ;;
    ret err.

Definition low_level_output (p : pbuf) : M err_t :=
  mode <- load esp_operating_mode ;;
  if negb (is_running mode) then ret ERR_IF
  else
    err <- espif_tx_msg_packet p ;;
    if negb (err =? ERR_OK) then ret ERR_IF else ret ERR_OK.

Definition espif_tick : M bool :=
  current_init <- load init_countdown ;;
  when (0 <? current_init) (store (set_init_countdown (current_init - 1))) ;;
  link <- espif_link ;;
  if link then
    was_alive <- exchange_seen_intron false ;;
    seen_packet <- exchange_seen_rx_packet false ;;
    mode <- load esp_operating_mode ;;
    (if negb seen_packet && is_running mode
     then _ <- espif_tx_msg_packet [] ;; ret tt
     else ret tt) ;;
    ret was_alive
  else ret false.

Definition espif_need_ap : M bool :=
  mode <- load esp_operating_mode ;;
  ret (if mode_eq_dec mode ESPIF_NEED_AP then true else false).

Definition espif_reset : M unit :=
  mode <- load esp_operating_mode ;;
  if negb (can_recieve_data mode) then ret tt
  else
    reset_intron ;;
    force_down ;;
    hard_reset_device ;;
    store (set_esp_operating_mode ESPIF_WAIT_INIT) ;;
    uart_rx_parser_reset.

Definition espif_notify_flash_result (result : FlashResult) : M unit :=
  match result with
  | success => store (set_esp_operating_mode ESPIF_WAIT_INIT)
  | not_connected =>
      store (set_esp_operating_mode ESPIF_FLASHING_ERROR_NOT_CONNECTED)
  | failure => store (set_esp_operating_mode ESPIF_FLASHING_ERROR_OTHER)
  end.

(** *** Derived states *)

Definition esp_fw_state (st : State) : EspFwState.t :=
  let mode := esp_operating_mode st in
  let detected := esp_detected st in
  let seen_ok := esp_was_ok st in
  match mode with
  | ESPIF_UNINITIALIZED_MODE =>
      if seen_ok then EspFwState.Ok else EspFwState.Unknown
  | ESPIF_FLASHING_ERROR_NOT_CONNECTED => EspFwState.FlashingErrorNotConnected
  | ESPIF_FLASHING_ERROR_OTHER => EspFwState.FlashingErrorOther
  | ESPIF_WAIT_INIT =>
      if seen_ok then EspFwState.Ok
      else if detected then
        if 0 <? init_countdown st then EspFwState.Unknown
        else EspFwState.NoFirmware
      else EspFwState.NoEsp
  | ESPIF_NEED_AP
  | ESPIF_CONNECTING_AP
  | ESPIF_RUNNING_MODE => EspFwState.Ok
  | ESPIF_WRONG_FW => EspFwState.WrongVersion
  | ESPIF_SCANNING_MODE => EspFwState.Scanning
  end.

Definition esp_link_state (st : State) : EspLinkState.t :=
  match esp_operating_mode st with
  | ESPIF_WAIT_INIT
  | ESPIF_WRONG_FW
  | ESPIF_UNINITIALIZED_MODE
  | ESPIF_FLASHING_ERROR_NOT_CONNECTED
  | ESPIF_FLASHING_ERROR_OTHER
  | ESPIF_SCANNING_MODE => EspLinkState.Init
  | ESPIF_NEED_AP
  | ESPIF_CONNECTING_AP => EspLinkState.NoAp
  | ESPIF_RUNNING_MODE =>
      if associated st then
        if seen_intron st then EspLinkState.Up else EspLinkState.Silent
      else EspLinkState.NoAp
  end.

(** ** Notions used in the statements *)

(** The result of the transmission a call made in [st] issues first. *)
Definition next_tx_result (st : State) : HAL_StatusTypeDef :=
  HAL_UART_Transmit_DMA (env st) (length (uart_tx_log st)).

(** What one link change tells the IP stack, given the flag before it. *)
Definition link_notification (was link_up : bool) : list NetifCall :=
  match was, link_up with
  | false, true => [netifapi_netif_set_link_up]
  | true, false => [netifapi_netif_set_link_down]
  | _, _ => []
  end.

Fixpoint link_changes (evs : list bool) : M unit :=
  match evs with
  | [] => ret tt
  | link_up :: evs' => process_link_change link_up ;; link_changes evs'
  end.

(** A SCAN_AP_GET request for [index]. *)
Definition is_ap_get (index : Z) (e : TxData * HAL_StatusTypeDef) : Prop :=
  match fst e with
  | TxPrelude m =>
      type (header m) = SCAN_AP_GET /\ variable_byte (header m) = index
  | TxSegment _ => False
  end.


(** ** Sample collaborators and states *)

(** A well-behaved environment: every transmission succeeds, buffers are
    available, the ESP never answers a scan query.  The checksum is a
    stand-in (a byte sum), the enumerators are numbered in order. *)
Definition sample_env : Env :=
  {| HAL_UART_Transmit_DMA := fun _ => HAL_OK;
     rand_u := fun n => 300 + 37 * Z.of_nat n;
     pbuf_alloc_ok := fun _ => true;
     ap_info_arrival := fun _ => None;
     netif_input_result := fun _ => ERR_OK;
     cas_weak_fails := fun _ => false;
     crc32_calc_ex := fun c data => fold_left Z.add data c mod 4294967296;
     message_type_code := fun t =>
       match t with
       | DEVICE_INFO_V2 => 0 | CLIENTCONFIG_V2 => 1 | PACKET_V2 => 2
       | SCAN_START => 3 | SCAN_STOP => 4 | SCAN_AP_CNT => 5
       | SCAN_AP_INFO => 6 | SCAN_AP_GET => 7
       end;
     ap_info_of_bytes := fun b =>
       {| APInfo.ssid := b; APInfo.requires_password := false |};
     REQUIRED_PROTOCOL_VERSION := 12 |}.

(** As [sample_env], but the ESP answers the third scan query. *)
Definition answering_env : Env :=
  {| HAL_UART_Transmit_DMA := HAL_UART_Transmit_DMA sample_env;
     rand_u := rand_u sample_env;
     pbuf_alloc_ok := pbuf_alloc_ok sample_env;
     ap_info_arrival := fun n =>
       if Nat.eqb n 2
       then Some {| APInfo.ssid := [104; 111; 109; 101];
                    APInfo.requires_password := true |}
       else None;
     netif_input_result := netif_input_result sample_env;
     cas_weak_fails := cas_weak_fails sample_env;
     crc32_calc_ex := crc32_calc_ex sample_env;
     message_type_code := message_type_code sample_env;
     ap_info_of_bytes := ap_info_of_bytes sample_env;
     REQUIRED_PROTOCOL_VERSION := REQUIRED_PROTOCOL_VERSION sample_env |}.

(** The statics as initialised, in operating mode [mode]. *)
Definition sample_state_in (E : Env) (mode : ESPIFOperatingMode) : State :=
  {| env := E;
     esp_operating_mode := mode;
     associated := false;
     active_esp_netif := {| hwaddr := []; hwaddr_len := 0 |};
     init_countdown := 20;
     seen_intron := false;
     seen_rx_packet := false;
     esp_detected := false;
     esp_was_ok := false;
     tx_message :=
       {| intron := [85; 78; 0; 1; 2; 3];
          header := {| type := DEVICE_INFO_V2; variable_byte := 0; size := 0 |};
          data_checksum := 0 |};
     scan := {| ScanData.is_running := false;
                ScanData.prescan_op_mode := ESPIF_UNINITIALIZED_MODE;
                ScanData.ap_count := 0;
                ScanData.ap_index := 0 |};
     ap_info_queue := None;
     uart_rx_parser :=
       {| cursor := SearchingIntron;
          checksum_valid := false;
          msg := {| intron := [85; 78; 0; 1; 2; 3];
                    header := {| type := DEVICE_INFO_V2; variable_byte := 0;
                                 size := 0 |};
                    data_checksum := 0 |};
          crc := 0;
          buffer := [];
          packet_buff_head := None;
          packet_buff_curr := None;
          packet_buff_read := 0 |};
     uart_tx_log := [];
     netif_log := [];
     rand_calls := 0;
     alloc_calls := 0;
     queue_waits := 0;
     esp_rst_pulses := 0 |}.

Definition sample_state : ESPIFOperatingMode -> State :=
  sample_state_in sample_env.

(** A completed DEVICE_INFO_V2 message carrying the required version and the
    MAC de:ad:be:ef:00:01, whose checksum did not match, received while
    waiting for the ESP to report. *)
Definition corrupt_device_info : State :=
  set_uart_rx_parser
    {| cursor := ReadingChecksum;
       checksum_valid := false;
       msg := {| intron := [85; 78; 0; 1; 2; 3];
                 header := {| type := DEVICE_INFO_V2; variable_byte := 12;
                              size := htons 6 |};
                 data_checksum := 0 |};
       crc := 3735928559;
       buffer := [222; 173; 190; 239; 0; 1];
       packet_buff_head := None;
       packet_buff_curr := None;
       packet_buff_read := 0 |}
    (sample_state ESPIF_WAIT_INIT).

(** The ESP was seen working once and has just been reset. *)
Definition after_inactivity_reset : State :=
  set_esp_was_ok true (sample_state ESPIF_WAIT_INIT).

(** A running link on which an intron and a packet were seen since the last
    tick. *)
Definition link_with_traffic : State :=
  set_seen_rx_packet true
    (set_seen_intron true
       (set_associated true (sample_state ESPIF_RUNNING_MODE))).

(** ** The completion-semaphore hand-over

    espif_tx_buffer and espif_tx_callback, one atomic access per step, under
    every interleaving of the sending tasks with the transmit-complete
    interrupt.  [tx_semaphore_active] is either [nullptr] or [&tx_semaphore],
    hence a [bool]; a failed [assert] is recorded and execution goes on, as
    in a build without assertions.

    The interrupt is the UART's transmit-complete interrupt: it is raised
    once for a DMA transfer that HAL_UART_Transmit_DMA started, and not
    otherwise.  The binary semaphore starts out empty. *)

Module TxHandshake.

(** Where a task stands. *)
Inductive Pc : Type :=
  | Outside    (* not in espif_tx_raw *)
  | Locked     (* in espif_tx_raw, holding uart_write_mutex, not in
                  espif_tx_buffer *)
  | Claimed    (* in espif_tx_buffer, after the first exchange *)
  | Acquiring. (* in espif_tx_buffer, HAL_OK, in tx_semaphore.acquire() *)

Record State : Type := {
  pc : nat -> Pc;
  uart_write_mutex : option nat;
  tx_semaphore_active : bool;
  tx_semaphore : bool;
  dma_busy : bool;
  (* history *)
  claims : nat;
  released_by_isr : nat;
  released_by_caller : nat;
  transmissions : nat;
  assert_failed : bool;
  dma_overrun : bool
}.

Definition init : State :=
  {| pc := fun _ => Outside; uart_write_mutex := None;
     tx_semaphore_active := false; tx_semaphore := false; dma_busy := false;
     claims := 0; released_by_isr := 0; released_by_caller := 0;
     transmissions := 0; assert_failed := false; dma_overrun := false |}.

Inductive Event : Type :=
  | lock (t : nat)          (* std::lock_guard lock { uart_write_mutex } *)
  | unlock (t : nat)        (* espif_tx_raw returns *)
  | claim (t : nat)         (* tx_semaphore_active.exchange(&tx_semaphore) *)
  | issue_ok (t : nat)      (* HAL_UART_Transmit_DMA returns HAL_OK *)
  | issue_failed (t : nat)  (* it returns an error: exchange(nullptr) *)
  | tx_callback             (* espif_tx_callback, from the interrupt *)
  | acquired (t : nat).     (* tx_semaphore.acquire() returns *)

Definition set_pc (t : nat) (v : Pc) (f : nat -> Pc) : nat -> Pc :=
  fun t' => if Nat.eqb t' t then v else f t'.

Definition at_pc (s : State) (t : nat) (v : Pc) : bool :=
  match pc s t, v with
  | Outside, Outside | Locked, Locked | Claimed, Claimed
  | Acquiring, Acquiring => true
  | _, _ => false
  end.

Definition owns (s : State) (t : nat) : bool :=
  match uart_write_mutex s with
  | Some o => Nat.eqb o t
  | None => false
  end.

(** One step; [None] when the event cannot happen in [s]. *)
Definition exec (e : Event) (s : State) : option State :=
  match e with
  | lock t =>
      match uart_write_mutex s with
      | None =>
          if at_pc s t Outside then
            Some {| pc := set_pc t Locked (pc s); uart_write_mutex := Some t;
                    tx_semaphore_active := tx_semaphore_active s;
                    tx_semaphore := tx_semaphore s; dma_busy := dma_busy s;
                    claims := claims s;
                    released_by_isr := released_by_isr s;
                    released_by_caller := released_by_caller s;
                    transmissions := transmissions s;
                    assert_failed := assert_failed s;
                    dma_overrun := dma_overrun s |}
          else None
      | Some _ => None
      end
  | unlock t =>
      if at_pc s t Locked && owns s t then
        Some {| pc := set_pc t Outside (pc s); uart_write_mutex := None;
                tx_semaphore_active := tx_semaphore_active s;
                tx_semaphore := tx_semaphore s; dma_busy := dma_busy s;
                claims := claims s;
                released_by_isr := released_by_isr s;
                released_by_caller := released_by_caller s;
                transmissions := transmissions s;
                assert_failed := assert_failed s;
                dma_overrun := dma_overrun s |}
      else None
  | claim t =>
      if at_pc s t Locked then
        let old_semaphore := tx_semaphore_active s in
        Some {| pc := set_pc t Claimed (pc s);
                uart_write_mutex := uart_write_mutex s;
                tx_semaphore_active := true;
                tx_semaphore := tx_semaphore s; dma_busy := dma_busy s;
                claims := S (claims s);
                released_by_isr := released_by_isr s;
                released_by_caller := released_by_caller s;
                transmissions := transmissions s;
                (* assert(old_semaphore == nullptr) *)
                assert_failed := assert_failed s || old_semaphore;
                dma_overrun := dma_overrun s |}
      else None
  | issue_ok t =>
      if at_pc s t Claimed then
        Some {| pc := set_pc t Acquiring (pc s);
                uart_write_mutex := uart_write_mutex s;
                tx_semaphore_active := tx_semaphore_active s;
                tx_semaphore := tx_semaphore s; dma_busy := true;
                claims := claims s;
                released_by_isr := released_by_isr s;
                released_by_caller := released_by_caller s;
                transmissions := S (transmissions s);
                assert_failed := assert_failed s;
                dma_overrun := dma_overrun s || dma_busy s |}
      else None
  | issue_failed t =>
      if at_pc s t Claimed then
        let withdrawn := tx_semaphore_active s in
        Some {| pc := set_pc t Locked (pc s);
                uart_write_mutex := uart_write_mutex s;
                tx_semaphore_active := false;
                tx_semaphore := tx_semaphore s; dma_busy := dma_busy s;
                claims := claims s;
                released_by_isr := released_by_isr s;
                released_by_caller :=
                  if withdrawn then S (released_by_caller s)
                  else released_by_caller s;
                transmissions := transmissions s;
                (* assert(withdrawn == &tx_semaphore) *)
                assert_failed := assert_failed s || negb withdrawn;
                dma_overrun := dma_overrun s |}
      else None
  | tx_callback =>
      if dma_busy s then
        let semaphore := tx_semaphore_active s in
        Some {| pc := pc s; uart_write_mutex := uart_write_mutex s;
                tx_semaphore_active := false;
                (* semaphore->release_from_isr() *)
                tx_semaphore := tx_semaphore s || semaphore;
                dma_busy := false;
                claims := claims s;
                released_by_isr :=
                  if semaphore then S (released_by_isr s)
                  else released_by_isr s;
                released_by_caller := released_by_caller s;
                transmissions := transmissions s;
                assert_failed := assert_failed s;
                dma_overrun := dma_overrun s |}
      else None
  | acquired t =>
      if at_pc s t Acquiring && tx_semaphore s then
        Some {| pc := set_pc t Locked (pc s);
                uart_write_mutex := uart_write_mutex s;
                tx_semaphore_active := tx_semaphore_active s;
                tx_semaphore := false; dma_busy := dma_busy s;
                claims := claims s;
                released_by_isr := released_by_isr s;
                released_by_caller := released_by_caller s;
                transmissions := transmissions s;
                assert_failed := assert_failed s;
                dma_overrun := dma_overrun s |}
      else None
  end.

Fixpoint run (evs : list Event) (s : State) : option State :=
  match evs with
  | [] => Some s
  | e :: evs' =>
      match exec e s with
      | Some s' => run evs' s'
      | None => None
      end
  end.

(** Claims not yet released. *)
Definition outstanding (s : State) : nat :=
  if tx_semaphore_active s then 1 else 0.

(** What holds of the shared variables at each point of the owner of the
    mutex. *)
Definition at_point (s : State) (p : Pc) : Prop :=
  match p with
  | Outside => False
  | Locked =>
      tx_semaphore_active s = false /\ tx_semaphore s = false
      /\ dma_busy s = false
  | Claimed =>
      tx_semaphore_active s = true /\ tx_semaphore s = false
      /\ dma_busy s = false
  | Acquiring =>
      (tx_semaphore_active s = true /\ tx_semaphore s = false
       /\ dma_busy s = true)
      \/ (tx_semaphore_active s = false /\ tx_semaphore s = true
          /\ dma_busy s = false)
  end.

Definition invariant (s : State) : Prop :=
  assert_failed s = false
  /\ dma_overrun s = false
  /\ (claims s = released_by_isr s + released_by_caller s + outstanding s)%nat
  /\ (transmissions s = released_by_isr s + if dma_busy s then 1 else 0)%nat
  /\ match uart_write_mutex s with
     | None =>
         (forall t, pc s t = Outside)
         /\ tx_semaphore_active s = false /\ tx_semaphore s = false
         /\ dma_busy s = false
     | Some o => (forall t, t <> o -> pc s t = Outside) /\ at_point s (pc s o)
     end.

(** Two tasks; the first sends a header and a segment, the second has its
    transmission refused. *)
Definition sample_schedule : list Event :=
  [lock 0%nat; claim 0%nat; issue_ok 0%nat; tx_callback; acquired 0%nat;
   claim 0%nat; issue_ok 0%nat; tx_callback; acquired 0%nat; unlock 0%nat;
   lock 1%nat; claim 1%nat; issue_failed 1%nat].

Definition sample_final : State :=
  Eval vm_compute in
    match run sample_schedule init with Some s => s | None => init end.

End TxHandshake.


(** ** Further notions used in the statements *)

(** The intron espif_tx_msg_clientconfig_v2 builds when called in [st]: the
    first two bytes of the active one, then the next four values of rand_u
    as bytes. *)
Definition proposed_intron (st : State) : list Z :=
  let old := intron (tx_message st) in
  let k := rand_calls st in
  [nth 0 old 0; nth 1 old 0;
   rand_u (env st) k mod 256; rand_u (env st) (S k) mod 256;
   rand_u (env st) (S (S k)) mod 256; rand_u (env st) (S (S (S k))) mod 256].

(** As [sample_env], but every weak compare-exchange fails spuriously. *)
Definition failing_exchange_env : Env :=
  {| HAL_UART_Transmit_DMA := HAL_UART_Transmit_DMA sample_env;
     rand_u := rand_u sample_env;
     pbuf_alloc_ok := pbuf_alloc_ok sample_env;
     ap_info_arrival := ap_info_arrival sample_env;
     netif_input_result := netif_input_result sample_env;
     cas_weak_fails := fun _ => true;
     crc32_calc_ex := crc32_calc_ex sample_env;
     message_type_code := message_type_code sample_env;
     ap_info_of_bytes := ap_info_of_bytes sample_env;
     REQUIRED_PROTOCOL_VERSION := REQUIRED_PROTOCOL_VERSION sample_env |}.

(** A scan started from NeedAp, in that environment. *)
Definition scan_with_failing_exchange : State :=
  snd (scan.start (sample_state_in failing_exchange_env ESPIF_NEED_AP)).

(** A scan was started while the link was up. *)
Definition scan_in_progress : State :=
  snd (scan.start (set_associated true (sample_state ESPIF_RUNNING_MODE))).

(** [n] health-check rounds in a row, with what each returned. *)
Fixpoint espif_ticks (n : nat) : M (list bool) :=
  match n with
  | O => ret []
  | S n' =>
      was_alive <- espif_tick ;;
      rest <- espif_ticks n' ;;
      ret (was_alive :: rest)
  end.

(** A keepalive: a PACKET_V2 prelude announcing no payload. *)
Definition is_keepalive (e : TxData * HAL_StatusTypeDef) : Prop :=
  match fst e with
  | TxPrelude m =>
      type (header m) = PACKET_V2 /\ variable_byte (header m) = 1
      /\ size (header m) = 0
  | TxSegment _ => False
  end.

(** The ESP answers on the UART but never reports its firmware. *)
Definition esp_without_firmware : State :=
  set_esp_detected true (sample_state ESPIF_WAIT_INIT).

(** A running link that has gone quiet. *)
Definition silent_link : State :=
  set_associated true (sample_state ESPIF_RUNNING_MODE).

(** A run of frames handed to espif_tx_raw one after the other. *)
Fixpoint espif_tx_raws (frames : list (MessageType * Z * pbuf)) : M unit :=
  match frames with
  | [] => ret tt
  | (message_type, message_byte, p) :: rest =>
      _ <- espif_tx_raw message_type message_byte p ;;
      espif_tx_raws rest
  end.

(** A transmission made under the intron [i]: a prelude that carries it, or
    a payload segment. *)
Definition sent_under (i : list Z) (e : TxData * HAL_StatusTypeDef) : Prop :=
  match fst e with
  | TxPrelude m => intron m = i
  | TxSegment _ => True
  end.

(** A valid PACKET_V2 message announcing link up and carrying no payload,
    received on a link that was down: the chain is one empty segment, at
    which [packet_buff_curr] still points. *)
Definition empty_packet_received : State :=
  set_uart_rx_parser
    {| cursor := ReadingChecksum;
       checksum_valid := true;
       msg := {| intron := [85; 78; 0; 1; 2; 3];
                 header := {| type := PACKET_V2; variable_byte := 1;
                              size := 0 |};
                 data_checksum := 0 |};
       crc := 0;
       buffer := [];
       packet_buff_head := Some [[]];
       packet_buff_curr := Some 0%nat;
       packet_buff_read := 0 |}
    (sample_state ESPIF_CONNECTING_AP).

(** A complete, valid PACKET_V2 message announcing link up, its payload in a
    chain of two segments, received on a link that was down; update_packet
    has written the last byte, which leaves [packet_buff_curr] null. *)
Definition packet_received : State :=
  set_uart_rx_parser
    {| cursor := ReadingChecksum;
       checksum_valid := true;
       msg := {| intron := [85; 78; 0; 1; 2; 3];
                 header := {| type := PACKET_V2; variable_byte := 1;
                              size := htons 5 |};
                 data_checksum := 0 |};
       crc := 0;
       buffer := [];
       packet_buff_head := Some [[1; 2; 3]; [4; 5]];
       packet_buff_curr := None;
       packet_buff_read := 0 |}
    (sample_state ESPIF_CONNECTING_AP).

(** A reply to a scan query is waiting in the queue. *)
Definition reply_queued : State :=
  set_ap_info_queue
    (Some {| APInfo.ssid := [104; 111; 109; 101];
             APInfo.requires_password := true |})
    (sample_state ESPIF_SCANNING_MODE).

(** A valid SCAN_AP_INFO reply for entry 7, handled while entry 2 is being
    queried. *)
Definition reply_for_other_entry : State :=
  set_scan
    {| ScanData.is_running := true;
       ScanData.prescan_op_mode := ESPIF_NEED_AP;
       ScanData.ap_count := 9;
       ScanData.ap_index := 2 |}
    (set_uart_rx_parser
       {| cursor := ReadingChecksum;
          checksum_valid := true;
          msg := {| intron := [85; 78; 0; 1; 2; 3];
                    header := {| type := SCAN_AP_INFO; variable_byte := 7;
                                 size := htons 4 |};
                    data_checksum := 0 |};
          crc := 0;
          buffer := [104; 111; 109; 101];
          packet_buff_head := None;
          packet_buff_curr := None;
          packet_buff_read := 0 |}
       (sample_state ESPIF_SCANNING_MODE)).

(** ** Polling the receive ring buffer (espif_input_once) *)

(** The statics of the receive DMA.  [sizeof(dma_buffer_rx)], that is
    RX_BUFFER_LEN, is the length of [dma_buffer_rx]. *)
Record RxDma : Type := {
  dma_buffer_rx : list Z;
  old_dma_pos : Z;
  uart_error_occured : bool
}.

Definition RX_BUFFER_LEN (d : RxDma) : Z := Z.of_nat (length (dma_buffer_rx d)).

(** [&dma_buffer_rx[off]] with a size. *)
Definition rx_slice (d : RxDma) (off size : Z) : list Z :=
  firstn (Z.to_nat size) (skipn (Z.to_nat off) (dma_buffer_rx d)).

(** uart_input, up to the call of the parser: it marks the ESP as detected
    and passes the bytes on to uart_rx_parser.process_data, which is
    esp::RxParserBase's; the bytes passed are the result here. *)
Definition uart_input (data : list Z) : M (list Z) :=
  store (set_esp_detected true) ;;
  ret data.

(** espif_input_once.  [huart_init] and [receive_dma] are what
    HAL_UART_Init and HAL_UART_Receive_DMA return if the recovery from a
    UART error calls them, [dma_bytes_left] is the DMA counter read.  The
    result lists the slices handed to uart_input, in order. *)
Definition espif_input_once (huart_init receive_dma : HAL_StatusTypeDef)
    (dma_bytes_left : Z) (d : RxDma) : M (list (list Z) * RxDma) :=
  mode <- load esp_operating_mode ;;
  if negb (can_recieve_data mode) then ret ([], d)
  else if uart_error_occured d then
    (* compare_exchange_strong(error, false) found the flag set *)
    let d := {| dma_buffer_rx := dma_buffer_rx d;
                old_dma_pos := old_dma_pos d;
                uart_error_occured := false |} in
    if negb (is_HAL_OK huart_init) then
      ret ([], {| dma_buffer_rx := dma_buffer_rx d;
                  old_dma_pos := old_dma_pos d;
                  uart_error_occured := true |})
    else if negb (is_HAL_OK receive_dma) then
      ret ([], {| dma_buffer_rx := dma_buffer_rx d;
                  old_dma_pos := old_dma_pos d;
                  uart_error_occured := true |})
    else
      ret ([], {| dma_buffer_rx := dma_buffer_rx d;
                  old_dma_pos := 0;
                  uart_error_occured := uart_error_occured d |})
  else
    (* size_t, 32 bits wide *)
    let pos := (RX_BUFFER_LEN d - dma_bytes_left) mod 4294967296 in
    if pos =? old_dma_pos d then ret ([], d)
    else
      fed <- (if old_dma_pos d <? pos then
                c <- uart_input (rx_slice d (old_dma_pos d)
                                   (pos - old_dma_pos d)) ;;
                ret [c]
              else
                c1 <- uart_input (rx_slice d (old_dma_pos d)
                                    (RX_BUFFER_LEN d - old_dma_pos d)) ;;
                if 0 <? pos then
                  c2 <- uart_input (rx_slice d 0 pos) ;;
                  ret [c1; c2]
                else ret [c1]) ;;
      ret (fed,
           {| dma_buffer_rx := dma_buffer_rx d;
              old_dma_pos := if pos =? RX_BUFFER_LEN d then 0 else pos;
              uart_error_occured := uart_error_occured d |}).

(** An eight-byte ring of which bytes 6, 7, 0 and 1 are new. *)
Definition ring_wrapped : RxDma :=
  {| dma_buffer_rx := [10; 11; 12; 13; 14; 15; 16; 17];
     old_dma_pos := 6;
     uart_error_occured := false |}.

(** ** Filling the packet buffer (UartRxParser) *)

(** start_packet.  [pbuf_alloc_rx] (pbuf_rx.h) is the allocator: the chain
    it returns for a size, or nothing. *)
Definition start_packet (pbuf_alloc_rx : Z -> option pbuf)
    (p : UartRxParser) : bool * UartRxParser :=
  let head := pbuf_alloc_rx (size (header (msg p))) in
  let p := set_packet_buff_read 0 (set_packet_buff_head head p) in
  match head with
  | Some _ => (true, set_packet_buff_curr (Some 0%nat) p)
  | None => (false, p)
  end.

Definition reset_packet (p : UartRxParser) : UartRxParser :=
  match packet_buff_head p with
  | Some _ => set_packet_buff_curr None (set_packet_buff_head None p)
  | None => p
  end.

(** [memcpy(payload + off, data, length data)] on a segment. *)
Definition write_at (seg : list Z) (off : nat) (data : list Z) : list Z :=
  firstn off seg ++ data ++ skipn (off + length data) seg.

(** The chain with segment [i] replaced. *)
Definition set_segment (i : nat) (seg : list Z) (chain : pbuf) : pbuf :=
  firstn i chain ++ seg :: skipn (S i) chain.

(** The [while (!data.empty())] loop of update_packet.  [None] stands for
    what the C++ leaves undefined: reading through a null
    [packet_buff_curr], or copying past the end of the segment; with enough
    fuel nothing else yields it. *)
Fixpoint update_packet_loop (fuel : nat) (data : list Z) (p : UartRxParser)
  : option UartRxParser :=
  match data, fuel with
  | [], _ => Some p
  | _ :: _, O => None
  | _ :: _, S fuel' =>
      match packet_buff_head p, packet_buff_curr p with
      | Some chain, Some i =>
          match nth_error chain i with
          | Some seg =>
              let len := Z.of_nat (length seg) in
              let read := packet_buff_read p in
              if (read <? 0) || (len <? read) then None
              else
                let to_read :=
                  Z.min ((len - read) mod 4294967296)
                    (Z.of_nat (length data) mod 4294967296) in
                let n := Z.to_nat to_read in
                let seg' := write_at seg (Z.to_nat read) (firstn n data) in
                let chain' := set_segment i seg' chain in
                let read' := (read + to_read) mod 65536 in
                let p1 :=
                  set_packet_buff_read read'
                    (set_packet_buff_head (Some chain') p) in
                (* Switch to next pbuf *)
                let p2 :=
                  if read' =? len
                  then set_packet_buff_read 0
                         (set_packet_buff_curr
                            (next_segment (Some chain') (Some i)) p1)
                  else p1 in
                update_packet_loop fuel' (skipn n data) p2
          | None => None
          end
      | _, _ => None
      end
  end.

Definition chain_of (p : UartRxParser) : pbuf :=
  match packet_buff_head p with Some chain => chain | None => [] end.

Definition update_packet (data : list Z) (p : UartRxParser)
  : option UartRxParser :=
  update_packet_loop (S (length data + length (chain_of p))) data p.

(** The payload bytes of the packet buffer, all segments in a row. *)
Definition packet_bytes (p : UartRxParser) : list Z := concat (chain_of p).

(** How many bytes of the packet lie before the write cursor. *)
Definition packet_pos (p : UartRxParser) : nat :=
  match packet_buff_curr p with
  | Some i =>
      (length (concat (firstn i (chain_of p)))
       + Z.to_nat (packet_buff_read p))%nat
  | None => length (packet_bytes p)
  end.

(** The write cursor points into the chain, not beyond the end of its
    segment. *)
Definition cursor_ok (p : UartRxParser) : Prop :=
  match packet_buff_curr p with
  | Some i =>
      exists seg, nth_error (chain_of p) i = Some seg
                  /\ 0 <= packet_buff_read p <= Z.of_nat (length seg)
  | None => True
  end.

(** A buffer of 3 + 0 + 4 bytes, freshly allocated. *)
Definition fresh_packet : UartRxParser :=
  snd (start_packet (fun _ => Some [[0; 0; 0]; []; [0; 0; 0; 0]])
         (uart_rx_parser packet_received)).

(** The parser after one turn of the loop of update_packet that copies [n]
    bytes into segment [seg], which follows the segments [pre]. *)
Definition after_turn (p : UartRxParser) (pre post : pbuf) (seg : list Z)
    (n : nat) (data : list Z) : UartRxParser :=
  let r := Z.to_nat (packet_buff_read p) in
  let seg' := write_at seg r (firstn n data) in
  let chain' := pre ++ seg' :: post in
  let p1 :=
    set_packet_buff_read (Z.of_nat (r + n))
      (set_packet_buff_head (Some chain') p) in
  if (r + n =? length seg)%nat
  then set_packet_buff_read 0
         (set_packet_buff_curr
            (match post with
             | [] => None
             | _ :: _ => Some (S (length pre))
             end) p1)
  else p1.

(** [p'] is [p] with [data] written at the cursor: the same segments by
    size, the bytes of the packet overwritten from the cursor on, the cursor
    moved behind them, and the message being parsed untouched. *)
Definition filled (p : UartRxParser) (data : list Z) (p' : UartRxParser)
  : Prop :=
  map (@length Z) (chain_of p') = map (@length Z) (chain_of p)
  /\ packet_bytes p' = write_at (packet_bytes p) (packet_pos p) data
  /\ packet_pos p' = (packet_pos p + length data)%nat
  /\ cursor_ok p'
  /\ msg p' = msg p
  /\ checksum_valid p' = checksum_valid p
  /\ buffer p' = buffer p.
(** * Properties *)

(** ** The completion-semaphore hand-over *)

Module TxHandshakeFacts.
Import TxHandshake.

Lemma at_pc_true (s : State) (t : nat) (v : Pc) :
  at_pc s t v = true -> pc s t = v.
Proof.
  unfold at_pc. destruct (pc s t), v; intro H; try reflexivity; discriminate H.
Qed.

Lemma set_pc_same (t : nat) (v : Pc) (f : nat -> Pc) : set_pc t v f t = v.
Proof. unfold set_pc. now rewrite Nat.eqb_refl. Qed.

Lemma set_pc_other (t t' : nat) (v : Pc) (f : nat -> Pc) :
  t' <> t -> set_pc t v f t' = f t'.
Proof.
  intro H. unfold set_pc.
  destruct (Nat.eqb_spec t' t); [contradiction | reflexivity].
Qed.

(** A task that is not outside espif_tx_raw holds the mutex. *)
Lemma inside_owns (s : State) (t : nat) :
  invariant s -> pc s t <> Outside -> uart_write_mutex s = Some t.
Proof.
  intros (_ & _ & _ & _ & H) Ht.
  destruct (uart_write_mutex s) as [o|].
  - destruct H as [Hout _].
    destruct (Nat.eq_dec t o) as [->|Hne]; [reflexivity|].
    elim Ht. now apply Hout.
  - destruct H as [Hout _]. elim Ht. apply Hout.
Qed.

Lemma inside_at_point (s : State) (t : nat) :
  invariant s -> pc s t <> Outside -> at_point s (pc s t).
Proof.
  intros Hinv Ht. pose proof (inside_owns s t Hinv Ht) as Hown.
  destruct Hinv as (_ & _ & _ & _ & H). rewrite Hown in H. apply H.
Qed.

(** What the invariant says when task [t] is found at point [p]. *)
Lemma invariant_at (s : State) (t : nat) (p : Pc) :
  invariant s -> pc s t = p -> p <> Outside ->
  uart_write_mutex s = Some t
  /\ (forall t', t' <> t -> pc s t' = Outside)
  /\ at_point s p.
Proof.
  intros Hinv Hpc Hp.
  assert (Hin : pc s t <> Outside) by now rewrite Hpc.
  pose proof (inside_owns s t Hinv Hin) as Hown.
  pose proof (inside_at_point s t Hinv Hin) as Hat. rewrite Hpc in Hat.
  destruct Hinv as (_ & _ & _ & _ & Hs). rewrite Hown in Hs.
  destruct Hs as (Hout & _). auto.
Qed.

Ltac owner_moves Hout :=
  repeat split; auto; try lia;
  try (intros ? Hne; rewrite set_pc_other by exact Hne; now apply Hout);
  try (rewrite set_pc_same; cbn; auto).

Lemma exec_invariant (e : Event) (s s' : State) :
  invariant s -> exec e s = Some s' -> invariant s'.
Proof.
  intros Hinv Hexec.
  destruct e as [t|t|t|t|t| |t]; cbn in Hexec.
  - (* lock *)
    destruct (uart_write_mutex s) eqn:Hm; [discriminate|].
    destruct (at_pc s t Outside) eqn:Hpc; [|discriminate].
    injection Hexec as <-.
    destruct Hinv as (Ha & Hd & Hc & Ht & Hs). rewrite Hm in Hs.
    destruct Hs as (Hout & Hact & Hsem & Hdma).
    unfold invariant, outstanding in *; cbn.
    owner_moves Hout.
  - (* unlock *)
    destruct (at_pc s t Locked) eqn:Hpc; [|discriminate].
    destruct (owns s t) eqn:Ho; [|discriminate]. cbn in Hexec.
    injection Hexec as <-.
    apply at_pc_true in Hpc.
    destruct (invariant_at s t _ Hinv Hpc)
      as (Hown & Hout & Hact & Hsem & Hdma); [discriminate|].
    destruct Hinv as (Ha & Hd & Hc & Ht & _).
    unfold invariant, outstanding in *; cbn.
    repeat split; auto.
    intros t'. destruct (Nat.eq_dec t' t) as [->|Hne].
    + now rewrite set_pc_same.
    + rewrite set_pc_other by exact Hne. now apply Hout.
  - (* claim *)
    destruct (at_pc s t Locked) eqn:Hpc; [|discriminate].
    injection Hexec as <-.
    apply at_pc_true in Hpc.
    destruct (invariant_at s t _ Hinv Hpc)
      as (Hown & Hout & Hact & Hsem & Hdma); [discriminate|].
    destruct Hinv as (Ha & Hd & Hc & Ht & _).
    unfold invariant, outstanding in *; cbn. rewrite Hown, Hact in *.
    owner_moves Hout. now rewrite Ha.
  - (* issue_ok *)
    destruct (at_pc s t Claimed) eqn:Hpc; [|discriminate].
    injection Hexec as <-.
    apply at_pc_true in Hpc.
    destruct (invariant_at s t _ Hinv Hpc)
      as (Hown & Hout & Hact & Hsem & Hdma); [discriminate|].
    destruct Hinv as (Ha & Hd & Hc & Ht & _).
    unfold invariant, outstanding in *; cbn. rewrite Hown, Hact, Hdma in *.
    owner_moves Hout. now rewrite Hd.
  - (* issue_failed *)
    destruct (at_pc s t Claimed) eqn:Hpc; [|discriminate].
    injection Hexec as <-.
    apply at_pc_true in Hpc.
    destruct (invariant_at s t _ Hinv Hpc)
      as (Hown & Hout & Hact & Hsem & Hdma); [discriminate|].
    destruct Hinv as (Ha & Hd & Hc & Ht & _).
    unfold invariant, outstanding in *; cbn. rewrite Hown, Hact, Hdma in *.
    owner_moves Hout. now rewrite Ha.
  - (* tx_callback *)
    destruct (dma_busy s) eqn:Hbusy; [|discriminate].
    injection Hexec as <-.
    destruct Hinv as (Ha & Hd & Hc & Ht & Hs). rewrite Hbusy in Ht.
    destruct (uart_write_mutex s) as [o|] eqn:Hown.
    + destruct Hs as (Hout & Hat).
      unfold invariant, outstanding in *; cbn.
      destruct (pc s o) eqn:Hpc; cbn in Hat.
      * contradiction.
      * destruct Hat as (_ & _ & Hdma). congruence.
      * destruct Hat as (_ & _ & Hdma). congruence.
      * destruct Hat as [(Hact & Hsem & Hdma) | (_ & _ & Hdma)]; [|congruence].
        rewrite Hact, Hsem in *. cbn.
        repeat split; auto; lia.
    + destruct Hs as (_ & _ & _ & Hdma). congruence.
  - (* acquired *)
    destruct (at_pc s t Acquiring) eqn:Hpc; [|discriminate].
    destruct (tx_semaphore s) eqn:Hsem; [|discriminate]. cbn in Hexec.
    injection Hexec as <-.
    apply at_pc_true in Hpc.
    destruct (invariant_at s t _ Hinv Hpc) as (Hown & Hout & Hat); [discriminate|].
    destruct Hat as [(_ & Hsem' & _) | (Hact & _ & Hdma)]; [congruence|].
    destruct Hinv as (Ha & Hd & Hc & Ht & _).
    unfold invariant, outstanding in *; cbn. rewrite Hown, Hact, Hdma in *.
    owner_moves Hout.
Qed.

Lemma init_invariant : invariant init.
Proof. unfold invariant, init; cbn. repeat split; auto. Qed.

Lemma run_invariant (evs : list Event) (s s' : State) :
  invariant s -> run evs s = Some s' -> invariant s'.
Proof.
  revert s. induction evs as [|e evs IH]; intros s Hinv Hrun; cbn in Hrun.
  - now injection Hrun as <-.
  - destruct (exec e s) as [s1|] eqn:He; [|discriminate].
    eapply IH; [|exact Hrun]. eapply exec_invariant; eauto.
Qed.

(** C3.  Claims and releases of the completion-semaphore slot are paired one
    to one.  In every state the sending tasks and the transmit-complete
    interrupt can reach from the initial one, whatever the interleaving:
    neither assertion of espif_tx_buffer has failed (the slot was free at
    every claim, and the caller's withdrawal after a failed transmission
    found its own claim); the claims made equal the releases by the
    interrupt plus the releases by the failing caller plus the at most one
    claim still outstanding; the transfers started equal the interrupt's
    releases plus the one in flight, and no transfer was started while
    another was in flight; a task can only claim when no claim is
    outstanding and no transfer is in flight; and when espif_tx_raw returns
    every claim has been released. *)
Theorem tx_claims_and_releases_paired (evs : list Event) (s : State) :
  run evs init = Some s ->
  assert_failed s = false
  /\ dma_overrun s = false
  /\ (claims s = released_by_isr s + released_by_caller s + outstanding s)%nat
  /\ (outstanding s <= 1)%nat
  /\ (transmissions s = released_by_isr s + if dma_busy s then 1 else 0)%nat
  /\ (forall t s', exec (claim t) s = Some s' ->
        outstanding s = 0%nat /\ dma_busy s = false)
  /\ (forall t s', exec (unlock t) s = Some s' ->
        claims s = (released_by_isr s + released_by_caller s)%nat).
Proof.
  intro Hrun.
  pose proof (run_invariant evs init s init_invariant Hrun) as Hinv.
  pose proof Hinv as (Ha & Hd & Hc & Ht & _).
  assert (Hlocked : forall t, at_pc s t Locked = true ->
            tx_semaphore_active s = false /\ dma_busy s = false).
  { intros t Hpc. apply at_pc_true in Hpc.
    destruct (invariant_at s t _ Hinv Hpc) as (_ & _ & Hact & _ & Hdma);
      [discriminate | auto]. }
  split; [exact Ha|]. split; [exact Hd|]. split; [exact Hc|].
  split; [unfold outstanding; destruct (tx_semaphore_active s); lia|].
  split; [exact Ht|]. split.
  - intros t s' H. cbn in H.
    destruct (at_pc s t Locked) eqn:Hpc; [|discriminate].
    destruct (Hlocked t Hpc) as (Hact & Hdma).
    unfold outstanding. rewrite Hact. auto.
  - intros t s' H. cbn in H.
    destruct (at_pc s t Locked) eqn:Hpc; [|discriminate].
    destruct (Hlocked t Hpc) as (Hact & _).
    unfold outstanding in Hc. rewrite Hact in Hc. lia.
Qed.

Lemma tx_claims_and_releases_paired_witness :
  run sample_schedule init = Some sample_final
  /\ claims sample_final = 3%nat
  /\ released_by_isr sample_final = 2%nat
  /\ released_by_caller sample_final = 1%nat
  /\ assert_failed sample_final = false
  /\ outstanding sample_final = 0%nat.
Proof.
  assert (Hrun : run sample_schedule init = Some sample_final)
    by (vm_compute; reflexivity).
  destruct (tx_claims_and_releases_paired sample_schedule sample_final Hrun)
    as (Ha & _ & Hc & _).
  repeat split; try reflexivity; assumption.
Defined.

End TxHandshakeFacts.

(** ** Firmware health *)

(** C8.  Once the ESP was seen working ([esp_was_ok]), [esp_fw_state]
    reports neither NoFirmware nor NoEsp, whatever the operating mode, the
    detection flag, the countdown and the link state. *)
Theorem esp_fw_state_after_ok (st : State) :
  esp_was_ok st = true ->
  esp_fw_state st <> EspFwState.NoFirmware
  /\ esp_fw_state st <> EspFwState.NoEsp.
Proof.
  intro Hok. unfold esp_fw_state. rewrite Hok.
  destruct (esp_operating_mode st); split; discriminate.
Qed.

Lemma esp_fw_state_after_ok_witness :
  esp_was_ok after_inactivity_reset = true
  /\ esp_detected after_inactivity_reset = false
  /\ esp_fw_state after_inactivity_reset <> EspFwState.NoFirmware
  /\ esp_fw_state after_inactivity_reset <> EspFwState.NoEsp.
Proof.
  split; [reflexivity|]. split; [reflexivity|].
  apply (esp_fw_state_after_ok after_inactivity_reset). reflexivity.
Defined.

(** Without the latch the same state is reported as NoEsp. *)
Example esp_fw_state_before_ok :
  esp_fw_state (sample_state ESPIF_WAIT_INIT) = EspFwState.NoEsp.
Proof. reflexivity. Qed.

(** ** Link changes *)

Lemma process_link_change_log (link_up : bool) (st : State) :
  let st' := snd (process_link_change link_up st) in
  netif_log st' = netif_log st ++ link_notification (associated st) link_up
  /\ associated st' = link_up.
Proof.
  unfold process_link_change, bind, load, when, exchange_associated, netif_call,
    store, ret.
  destruct link_up; cbn;
    destruct (ScanData.is_running (scan st)); cbn;
    destruct (associated st) eqn:Hwas; cbn; rewrite ?Hwas; cbn;
    rewrite ?app_nil_r; auto.
Qed.

(** C9.  process_link_change calls netifapi_netif_set_link_up exactly when
    [associated] goes from false to true and netifapi_netif_set_link_down
    exactly when it goes from true to false; after any sequence of link
    changes, delivering the same link state a second time in a row makes no
    call into the IP stack. *)
Theorem process_link_change_edge_triggered
    (evs : list bool) (link_up : bool) (st : State) :
  let st0 := snd (link_changes evs st) in
  let st1 := snd (process_link_change link_up st0) in
  let st2 := snd (process_link_change link_up st1) in
  netif_log st1 = netif_log st0 ++ link_notification (associated st0) link_up
  /\ associated st1 = link_up
  /\ netif_log st2 = netif_log st1.
Proof.
  intros st0 st1 st2.
  destruct (process_link_change_log link_up st0) as [Hlog Hassoc].
  destruct (process_link_change_log link_up st1) as [Hlog' _].
  fold st1 in Hlog, Hassoc. fold st2 in Hlog'.
  split; [exact Hlog|]. split; [exact Hassoc|].
  rewrite Hlog', Hassoc. destruct link_up; cbn; now rewrite app_nil_r.
Qed.

(** ** Transmitting a message without payload *)

Lemma espif_tx_raw_nullptr (mt : MessageType) (vb : Z) (st : State) :
  let m := fill_prelude (env st) (tx_message st) mt vb [] in
  espif_tx_raw mt vb [] st
  = (hal_as_err (next_tx_result st),
     set_uart_tx_log (uart_tx_log st ++ [(TxPrelude m, next_tx_result st)])
       (set_tx_message m st)).
Proof.
  unfold espif_tx_raw, next_tx_result, bind, store, load, espif_tx_buffer, ret.
  cbn. destruct (HAL_UART_Transmit_DMA (env st) (length (uart_tx_log st)));
    reflexivity.
Qed.

Lemma hal_as_err_ok (r : HAL_StatusTypeDef) :
  (hal_as_err r =? ERR_OK) = is_HAL_OK r.
Proof. destruct r; reflexivity. Qed.

Lemma hal_as_err_not_ERR_IF (r : HAL_StatusTypeDef) : hal_as_err r <> ERR_IF.
Proof. destruct r; discriminate. Qed.

(** ** Scan session *)

Lemma scan_start_eq (st : State) :
  let m := fill_prelude (env st) (tx_message st) SCAN_START 0 [] in
  let r := next_tx_result st in
  let sent :=
    set_uart_tx_log (uart_tx_log st ++ [(TxPrelude m, r)])
      (set_tx_message m st) in
  scan.start st
  = (hal_as_err r,
     if is_HAL_OK r
     then set_esp_operating_mode ESPIF_SCANNING_MODE
            (set_scan
               {| ScanData.is_running := true;
                  ScanData.prescan_op_mode := esp_operating_mode st;
                  ScanData.ap_count := 0;
                  ScanData.ap_index := ScanData.ap_index (scan st) |} sent)
     else set_scan (set_scan_is_running false (scan st)) sent).
Proof.
  cbn zeta. unfold scan.start, bind, exchange_scan_is_running.
  rewrite espif_tx_raw_nullptr. cbn -[fill_prelude Z.eqb].
  rewrite hal_as_err_ok. unfold next_tx_result. cbn -[fill_prelude].
  destruct (HAL_UART_Transmit_DMA (env st) (length (uart_tx_log st)));
    reflexivity.
Qed.

(** C6.  espif::scan::start sends SCAN_START and returns the result of that
    transmission.  When the transmission failed, the scan-running flag is
    false afterwards and the operating mode, ap_count and the saved mode are
    as before; when it succeeded, the flag is set, the saved mode is the mode
    the call found, the mode is Scanning and ap_count is 0. *)
Theorem scan_start_effects (st : State) :
  let r := next_tx_result st in
  let st' := snd (scan.start st) in
  fst (scan.start st) = hal_as_err r
  /\ uart_tx_log st'
     = uart_tx_log st
       ++ [(TxPrelude (fill_prelude (env st) (tx_message st) SCAN_START 0 []),
            r)]
  /\ if is_HAL_OK r
     then ScanData.is_running (scan st') = true
          /\ ScanData.prescan_op_mode (scan st') = esp_operating_mode st
          /\ esp_operating_mode st' = ESPIF_SCANNING_MODE
          /\ ScanData.ap_count (scan st') = 0
     else ScanData.is_running (scan st') = false
          /\ esp_operating_mode st' = esp_operating_mode st
          /\ ScanData.ap_count (scan st') = ScanData.ap_count (scan st)
          /\ ScanData.prescan_op_mode (scan st')
             = ScanData.prescan_op_mode (scan st).
Proof.
  cbn zeta. rewrite scan_start_eq. cbn [fst snd].
  destruct (is_HAL_OK (next_tx_result st)); cbn; repeat split.
Qed.

Lemma scan_stop_eq (st : State) :
  let m := fill_prelude (env st) (tx_message st) SCAN_STOP 0 [] in
  let r := next_tx_result st in
  let sent :=
    set_uart_tx_log (uart_tx_log st ++ [(TxPrelude m, r)])
      (set_tx_message m st) in
  scan.stop st
  = if ScanData.is_running (scan st)
    then (hal_as_err r,
          if is_HAL_OK r
          then snd (compare_exchange_weak ESPIF_SCANNING_MODE
                      (ScanData.prescan_op_mode (scan st))
                      (set_scan (set_scan_is_running false (scan st)) sent))
          else sent)
    else (ERR_IF, st).
Proof.
  cbn zeta. unfold scan.stop, bind, load, exchange_scan_is_running, ret.
  destruct (ScanData.is_running (scan st)); cbn [negb]; [|reflexivity].
  rewrite espif_tx_raw_nullptr. cbn -[fill_prelude Z.eqb compare_exchange_weak].
  rewrite hal_as_err_ok.
  destruct (is_HAL_OK (next_tx_result st)); [|reflexivity].
  destruct (compare_exchange_weak _ _ _). reflexivity.
Qed.

(** espif::scan::stop in full.  It returns ERR_IF and leaves everything as
    it was when no scan is running.  Otherwise it sends SCAN_STOP and
    returns the result of that transmission; when the transmission failed
    the flag and the mode are as before; when it succeeded the flag is
    cleared and the mode changes only if it was Scanning, in which case it
    becomes the saved pre-scan mode, unless the weak compare-exchange fails
    spuriously, which leaves the mode as it was. *)
Lemma scan_stop_effects (st : State) :
  let r := next_tx_result st in
  let st' := snd (scan.stop st) in
  if ScanData.is_running (scan st)
  then fst (scan.stop st) = hal_as_err r
       /\ uart_tx_log st'
          = uart_tx_log st
            ++ [(TxPrelude (fill_prelude (env st) (tx_message st) SCAN_STOP 0 []),
                 r)]
       /\ if is_HAL_OK r
          then ScanData.is_running (scan st') = false
               /\ esp_operating_mode st'
                  = (if mode_eq_dec (esp_operating_mode st) ESPIF_SCANNING_MODE
                     then if cas_weak_fails (env st) (S (length (uart_tx_log st)))
                          then esp_operating_mode st
                          else ScanData.prescan_op_mode (scan st)
                     else esp_operating_mode st)
          else ScanData.is_running (scan st') = true
               /\ esp_operating_mode st' = esp_operating_mode st
  else fst (scan.stop st) = ERR_IF /\ st' = st.
Proof.
  cbn zeta. rewrite scan_stop_eq.
  destruct (ScanData.is_running (scan st)) eqn:Hrun; cbn [fst snd]; [|auto].
  split; [reflexivity|].
  destruct (is_HAL_OK (next_tx_result st)); cbn.
  - unfold compare_exchange_weak. cbn.
    rewrite length_app, Nat.add_comm. cbn [length Nat.add].
    destruct (mode_eq_dec (esp_operating_mode st) ESPIF_SCANNING_MODE);
      [destruct (cas_weak_fails _ _)|]; cbn; repeat split.
  - repeat split. exact Hrun.
Qed.

(** C7 (the code departs from it).  A successful espif::scan::stop does not
    always restore the saved pre-scan mode although the mode is still
    Scanning: the restore is a single compare_exchange_weak whose result is
    not looked at, and when that exchange fails spuriously the call returns
    ERR_OK with the scan-running flag cleared and the operating mode left at
    Scanning. *)
Theorem scan_stop_leaves_scanning (st : State) :
  ScanData.is_running (scan st) = true ->
  esp_operating_mode st = ESPIF_SCANNING_MODE ->
  next_tx_result st = HAL_OK ->
  cas_weak_fails (env st) (S (length (uart_tx_log st))) = true ->
  let st' := snd (scan.stop st) in
  fst (scan.stop st) = ERR_OK
  /\ ScanData.is_running (scan st') = false
  /\ esp_operating_mode st' = ESPIF_SCANNING_MODE
  /\ ScanData.prescan_op_mode (scan st') = ScanData.prescan_op_mode (scan st).
Proof.
  intros Hrun Hmode Htx Hcas. cbn zeta. rewrite scan_stop_eq, Hrun, Htx.
  cbn [fst snd is_HAL_OK hal_as_err]. split; [reflexivity|].
  unfold compare_exchange_weak. cbn -[fill_prelude].
  rewrite length_app, Nat.add_comm. cbn [length Nat.add].
  rewrite Hmode, Hcas.
  destruct (mode_eq_dec ESPIF_SCANNING_MODE ESPIF_SCANNING_MODE);
    [|contradiction].
  cbn. rewrite Hmode. repeat split.
Qed.

Lemma scan_stop_leaves_scanning_witness :
  let st' := snd (scan.stop scan_with_failing_exchange) in
  ScanData.is_running (scan scan_with_failing_exchange) = true
  /\ esp_operating_mode scan_with_failing_exchange = ESPIF_SCANNING_MODE
  /\ ScanData.prescan_op_mode (scan scan_with_failing_exchange)
     = ESPIF_NEED_AP
  /\ fst (scan.stop scan_with_failing_exchange) = ERR_OK
  /\ ScanData.is_running (scan st') = false
  /\ esp_operating_mode st' = ESPIF_SCANNING_MODE.
Proof.
  cbn zeta.
  destruct (scan_stop_leaves_scanning scan_with_failing_exchange
              eq_refl eq_refl eq_refl eq_refl) as (Herr & Hrun & Hmode & _).
  repeat split; try reflexivity; assumption.
Defined.

Lemma err_ok_is_HAL_OK (r : HAL_StatusTypeDef) :
  hal_as_err r = ERR_OK -> is_HAL_OK r = true.
Proof. destruct r; intro H; try reflexivity; discriminate H. Qed.

Lemma scan_start_succeeded (st : State) :
  fst (scan.start st) = ERR_OK ->
  ScanData.is_running (scan (snd (scan.start st))) = true
  /\ ScanData.prescan_op_mode (scan (snd (scan.start st)))
     = esp_operating_mode st
  /\ esp_operating_mode (snd (scan.start st)) = ESPIF_SCANNING_MODE.
Proof.
  rewrite scan_start_eq. cbn [fst snd]. intro H.
  rewrite (err_ok_is_HAL_OK _ H). cbn. repeat split.
Qed.

Lemma scan_stop_succeeded (st : State) :
  ScanData.is_running (scan st) = true ->
  fst (scan.stop st) = ERR_OK ->
  ScanData.is_running (scan (snd (scan.stop st))) = false
  /\ (esp_operating_mode (snd (scan.stop st)) = esp_operating_mode st
      \/ esp_operating_mode (snd (scan.stop st))
         = ScanData.prescan_op_mode (scan st)).
Proof.
  intro Hrun. rewrite scan_stop_eq, Hrun. cbn [fst snd]. intro H.
  rewrite (err_ok_is_HAL_OK _ H). unfold compare_exchange_weak. cbn.
  destruct (mode_eq_dec (esp_operating_mode st) ESPIF_SCANNING_MODE);
    [destruct (cas_weak_fails _ _)|]; cbn; auto.
Qed.

(** C10.  espif::scan::start validates nothing.  In every state, whatever
    the operating mode and whether or not a scan is already running, it
    transmits SCAN_START and returns the result of that transmission, which
    is never ERR_IF; the scan-running flag is set afterwards exactly when
    the transmission succeeded.  A second successful start while the scan of
    a first one is active saves Scanning as the pre-scan mode, so that a
    successful stop after it leaves the mode at Scanning. *)
Theorem scan_start_unvalidated (st : State) :
  let r := next_tx_result st in
  let st1 := snd (scan.start st) in
  let st2 := snd (scan.start st1) in
  let st3 := snd (scan.stop st2) in
  (fst (scan.start st) = hal_as_err r
   /\ fst (scan.start st) <> ERR_IF
   /\ uart_tx_log st1
      = uart_tx_log st
        ++ [(TxPrelude (fill_prelude (env st) (tx_message st) SCAN_START 0 []),
             r)]
   /\ ScanData.is_running (scan st1) = is_HAL_OK r)
  /\ (fst (scan.start st) = ERR_OK ->
      fst (scan.start st1) = ERR_OK ->
      fst (scan.stop st2) = ERR_OK ->
      ScanData.is_running (scan st1) = true
      /\ esp_operating_mode st1 = ESPIF_SCANNING_MODE
      /\ ScanData.prescan_op_mode (scan st1) = esp_operating_mode st
      /\ ScanData.prescan_op_mode (scan st2) = ESPIF_SCANNING_MODE
      /\ ScanData.is_running (scan st3) = false
      /\ esp_operating_mode st3 = ESPIF_SCANNING_MODE).
Proof.
  intros r st1 st2 st3. split.
  - subst st1. rewrite scan_start_eq. cbn [fst snd]. fold r.
    split; [reflexivity|]. split; [apply hal_as_err_not_ERR_IF|].
    destruct (is_HAL_OK r); cbn; split; reflexivity.
  - intros H1 H2 H3.
    destruct (scan_start_succeeded st H1) as (Hrun1 & Hpre1 & Hmode1).
    destruct (scan_start_succeeded st1 H2) as (Hrun2 & Hpre2 & Hmode2).
    destruct (scan_stop_succeeded st2 Hrun2 H3) as (Hrun3 & Hmode3).
    fold st1 in Hrun1, Hpre1, Hmode1. fold st2 in Hrun2, Hpre2, Hmode2.
    fold st3 in Hrun3, Hmode3.
    rewrite Hmode1 in Hpre2. rewrite Hpre2, Hmode2 in Hmode3.
    repeat split; try assumption. destruct Hmode3; assumption.
Qed.

Lemma scan_start_unvalidated_witness :
  let st := sample_state ESPIF_NEED_AP in
  let st1 := snd (scan.start st) in
  let st2 := snd (scan.start st1) in
  let st3 := snd (scan.stop st2) in
  fst (scan.start st) = ERR_OK
  /\ fst (scan.start st1) = ERR_OK
  /\ fst (scan.stop st2) = ERR_OK
  /\ esp_operating_mode st = ESPIF_NEED_AP
  /\ ScanData.prescan_op_mode (scan st2) = ESPIF_SCANNING_MODE
  /\ esp_operating_mode st3 = ESPIF_SCANNING_MODE.
Proof.
  intros st st1 st2 st3.
  assert (H1 : fst (scan.start st) = ERR_OK) by (vm_compute; reflexivity).
  assert (H2 : fst (scan.start st1) = ERR_OK) by (vm_compute; reflexivity).
  assert (H3 : fst (scan.stop st2) = ERR_OK) by (vm_compute; reflexivity).
  destruct (scan_start_unvalidated st) as (_ & Hscenario).
  destruct (Hscenario H1 H2 H3) as (_ & _ & _ & Hpre & _ & Hmode).
  repeat split; assumption || reflexivity.
Defined.

(** ** Reset *)

(** C4 (amended).  espif_reset acts only in a mode that can receive data
    (WaitInit, NeedAp, ConnectingAp, Running, Scanning,
    FlashErrorNotConnected): there it forces the operating mode to WaitInit,
    returns the receive parser to searching for the intron, resets the
    intron's tail, forces the link down and clears the detection flag, and
    leaves seen-intron and seen-rx-packet as they were.  In Uninitialized,
    WrongFirmware and FlashErrorOther it changes nothing. *)
Theorem espif_reset_effects (st : State) :
  let st' := snd (espif_reset st) in
  let old := intron (tx_message st) in
  if can_recieve_data (esp_operating_mode st)
  then esp_operating_mode st' = ESPIF_WAIT_INIT
       /\ cursor (uart_rx_parser st') = SearchingIntron
       /\ seen_intron st' = seen_intron st
       /\ seen_rx_packet st' = seen_rx_packet st
       /\ associated st' = false
       /\ esp_detected st' = false
       /\ intron (tx_message st') = [nth 0 old 0; nth 1 old 0; 0; 1; 2; 3]
       /\ netif_log st'
          = netif_log st ++ link_notification (associated st) false
  else st' = st.
Proof.
  cbn zeta. unfold espif_reset, bind, load.
  destruct (can_recieve_data (esp_operating_mode st)); cbn [negb];
    [|reflexivity].
  unfold reset_intron, force_down, process_link_change, hard_reset_device,
    uart_rx_parser_reset, rx, bind, store, when, exchange_associated,
    netif_call, ret.
  cbn. destruct (associated st); cbn; rewrite ?app_nil_r; repeat split.
Qed.

(** C4 as stated fails: in WrongFirmware the mode is not forced to WaitInit,
    and on a running link the flags seen-intron and seen-rx-packet survive
    the reset. *)
Lemma espif_reset_counterexample :
  esp_operating_mode (snd (espif_reset (sample_state ESPIF_WRONG_FW)))
    <> ESPIF_WAIT_INIT
  /\ seen_intron (snd (espif_reset link_with_traffic)) <> false
  /\ seen_rx_packet (snd (espif_reset link_with_traffic)) <> false.
Proof. repeat split; vm_compute; discriminate. Qed.

(** ** Receive handlers and the checksum *)

Lemma process_scan_ap_count_corrupt (st : State) :
  checksum_valid (uart_rx_parser st) = false ->
  process_scan_ap_count st = (tt, st).
Proof.
  intro H. unfold process_scan_ap_count, validate_checksum, bind, load, when, ret.
  now rewrite H.
Qed.

Lemma process_scan_ap_info_corrupt (st : State) :
  checksum_valid (uart_rx_parser st) = false ->
  process_scan_ap_info st = (tt, st).
Proof.
  intro H. unfold process_scan_ap_info, validate_checksum, bind, load, when, ret.
  now rewrite H.
Qed.

(** A corrupt packet moves the parser's segment cursor and nothing else. *)
Lemma process_packet_corrupt (st : State) (chain : pbuf) (i : nat)
    (seg : list Z) :
  let p := uart_rx_parser st in
  packet_buff_head p = Some chain ->
  packet_buff_curr p = Some i ->
  nth_error chain i = Some seg ->
  checksum_valid p = false ->
  process_packet st
  = Some (tt,
          set_uart_rx_parser
            (set_packet_buff_read 0
               (set_packet_buff_curr
                  (next_segment (packet_buff_head p) (packet_buff_curr p)) p))
            st).
Proof.
  intros p Hhead Hcurr Hnth H. subst p. unfold process_packet.
  rewrite Hhead, Hcurr, Hnth. f_equal.
  unfold process_packet_from_next, validate_checksum, rx, bind, store, load,
    when, ret. cbn. rewrite H, Hhead, Hcurr. reflexivity.
Qed.

(** The device-info handler does the same whether or not the checksum
    matched, the seen-intron flag apart. *)
Lemma process_esp_device_info_any_checksum (st : State) :
  let st' := snd (process_esp_device_info st) in
  let p := uart_rx_parser st in
  active_esp_netif st'
  = {| hwaddr := hwaddr_of_buffer (buffer p); hwaddr_len := ETHARP_HWADDR_LEN |}
  /\ esp_operating_mode st'
     = (if mode_eq_dec (esp_operating_mode st) ESPIF_WAIT_INIT
        then if version (header (msg p)) =? REQUIRED_PROTOCOL_VERSION (env st)
             then ESPIF_NEED_AP else ESPIF_WRONG_FW
        else esp_operating_mode st).
Proof.
  cbn zeta.
  unfold process_esp_device_info, validate_checksum, compare_exchange_strong,
    bind, store, load, when, ret.
  destruct (checksum_valid (uart_rx_parser st)); cbn;
    destruct (mode_eq_dec (esp_operating_mode st) ESPIF_WAIT_INIT); cbn;
    try (destruct (version _ =? _); cbn); split; reflexivity.
Qed.

(** C1 (the code departs from it).  A DEVICE_INFO_V2 message whose checksum
    did not match is applied all the same: handled in WaitInit, it replaces
    the MAC address of the netif by the bytes of the corrupt message, moves
    the operating mode to NeedAp and latches [esp_was_ok]. *)
Theorem corrupt_device_info_applied :
  let st := corrupt_device_info in
  let st' := snd (process_esp_device_info st) in
  checksum_valid (uart_rx_parser st) = false
  /\ esp_operating_mode st = ESPIF_WAIT_INIT
  /\ esp_operating_mode st' = ESPIF_NEED_AP
  /\ hwaddr (active_esp_netif st) = []
  /\ hwaddr (active_esp_netif st') = [222; 173; 190; 239; 0; 1]
  /\ hwaddr_len (active_esp_netif st') = 6
  /\ esp_was_ok st = false
  /\ esp_was_ok st' = true.
Proof. cbn zeta. repeat split. Qed.

(** ** Client configuration *)

Lemma espif_tx_raw_single (mt : MessageType) (vb : Z) (seg : list Z)
    (st : State) :
  let m := fill_prelude (env st) (tx_message st) mt vb [seg] in
  let r1 := next_tx_result st in
  let r2 := HAL_UART_Transmit_DMA (env st) (S (length (uart_tx_log st))) in
  espif_tx_raw mt vb [seg] st
  = if is_HAL_OK r1
    then (hal_as_err r2,
          set_uart_tx_log
            (uart_tx_log st ++ [(TxPrelude m, r1); (TxSegment seg, r2)])
            (set_tx_message m st))
    else (hal_as_err r1,
          set_uart_tx_log (uart_tx_log st ++ [(TxPrelude m, r1)])
            (set_tx_message m st)).
Proof.
  cbn zeta.
  unfold espif_tx_raw, next_tx_result, bind, store, load, espif_tx_buffer, ret.
  cbn -[fill_prelude].
  destruct (HAL_UART_Transmit_DMA (env st) (length (uart_tx_log st)));
    cbn -[fill_prelude]; try reflexivity.
  rewrite length_app, Nat.add_comm. cbn [length Nat.add].
  rewrite <- app_assoc. cbn [app].
  destruct (HAL_UART_Transmit_DMA (env st) (S (length (uart_tx_log st))));
    reflexivity.
Qed.

(** For an SSID and a password that fit their length bytes the payload is
    the new intron, then each string behind its length. *)
Lemma clientconfig_payload_short (new_intron ssid pass : list Z) :
  (length ssid < 256)%nat -> (length pass < 256)%nat ->
  clientconfig_payload new_intron ssid pass
  = new_intron ++ [Z.of_nat (length ssid)] ++ ssid
      ++ [Z.of_nat (length pass)] ++ pass.
Proof.
  intros Hs Hp. unfold clientconfig_payload, strlen8.
  rewrite !Z.mod_small by lia. rewrite !Nat2Z.id, !firstn_all. reflexivity.
Qed.

(** C5.  espif_tx_msg_clientconfig_v2 returns ERR_IF and changes nothing
    while a scan is running.  Otherwise the new intron keeps the first two
    bytes of the active one and takes four bytes from rand_u; when the
    buffer cannot be allocated the call returns ERR_MEM and transmits
    nothing; else it transmits a CLIENTCONFIG_V2 prelude (under the active
    intron) and then the new intron with SSID and password as payload, and
    returns the result of the last transmission made.  In every case the
    active intron afterwards is the new one if the call returned ERR_OK and
    the old one otherwise. *)
Theorem clientconfig_commits_intron_on_success (ssid pass : list Z)
    (st : State) :
  let E := env st in
  let old := intron (tx_message st) in
  let k := rand_calls st in
  let new_intron :=
    [nth 0 old 0; nth 1 old 0;
     rand_u E k mod 256; rand_u E (S k) mod 256;
     rand_u E (S (S k)) mod 256; rand_u E (S (S (S k))) mod 256] in
  let payload := clientconfig_payload new_intron ssid pass in
  let prelude := fill_prelude E (tx_message st) CLIENTCONFIG_V2 0 [payload] in
  let r1 := next_tx_result st in
  let r2 := HAL_UART_Transmit_DMA E (S (length (uart_tx_log st))) in
  let err := fst (espif_tx_msg_clientconfig_v2 ssid pass st) in
  let st' := snd (espif_tx_msg_clientconfig_v2 ssid pass st) in
  intron (tx_message st') = (if err =? ERR_OK then new_intron else old)
  /\ intron prelude = old
  /\ if ScanData.is_running (scan st)
     then err = ERR_IF /\ st' = st
     else if pbuf_alloc_ok E (alloc_calls st)
          then if is_HAL_OK r1
               then uart_tx_log st'
                    = uart_tx_log st
                      ++ [(TxPrelude prelude, r1); (TxSegment payload, r2)]
                    /\ err = hal_as_err r2
               else uart_tx_log st'
                    = uart_tx_log st ++ [(TxPrelude prelude, r1)]
                    /\ err = hal_as_err r1
          else err = ERR_MEM /\ uart_tx_log st' = uart_tx_log st.
Proof.
  cbn zeta. unfold espif_tx_msg_clientconfig_v2, bind, load.
  destruct (ScanData.is_running (scan st)) eqn:Hrun.
  { cbn. repeat split. }
  cbn [rand_bytes]. unfold rand_u8, pbuf_alloc, bind, ret.
  cbn -[fill_prelude espif_tx_raw clientconfig_payload Z.modulo Z.eqb].
  destruct (pbuf_alloc_ok (env st) (alloc_calls st)) eqn:Halloc;
    cbn -[fill_prelude espif_tx_raw clientconfig_payload Z.modulo Z.eqb].
  2: { repeat split. }
  rewrite espif_tx_raw_single.
  cbn -[fill_prelude clientconfig_payload Z.modulo Z.eqb].
  unfold next_tx_result.
  cbn -[fill_prelude clientconfig_payload Z.modulo Z.eqb].
  destruct (HAL_UART_Transmit_DMA (env st) (length (uart_tx_log st)));
    cbn -[fill_prelude clientconfig_payload Z.modulo];
    try (repeat split; fail).
  destruct (HAL_UART_Transmit_DMA (env st) (S (length (uart_tx_log st))));
    cbn -[fill_prelude clientconfig_payload Z.modulo]; repeat split.
Qed.

(** Joining "ab" with password "c": the tail of the intron is replaced by
    the four random bytes and the payload carries the new intron. *)
Example clientconfig_sample :
  let res := espif_tx_msg_clientconfig_v2 [97; 98] [99]
               (sample_state ESPIF_NEED_AP) in
  fst res = ERR_OK
  /\ intron (tx_message (snd res)) = [85; 78; 44; 81; 118; 155]
  /\ map fst (uart_tx_log (snd res))
     = [TxPrelude
          {| intron := [85; 78; 0; 1; 2; 3];
             header := {| type := CLIENTCONFIG_V2; variable_byte := 0;
                          size := htons 11 |};
             data_checksum := htonl 1039 |};
        TxSegment [85; 78; 44; 81; 118; 155; 2; 97; 98; 1; 99]].
Proof. cbn zeta. repeat split. Qed.

(** ** Querying a scan result *)

Lemma get_ap_info_loop_done (index tries : Z) (last_error : err_t)
    (st : State) :
  tries < 0 ->
  scan.get_ap_info_loop index tries last_error st = (last_error, None, st).
Proof.
  intro H. rewrite scan.get_ap_info_loop_equation_1.
  destruct (Z_le_dec 0 tries); [lia|].
  now rewrite scan.get_ap_info_loop_clause_1_equation_2.
Qed.

(** One turn of the loop when the ESP does not answer. *)
Lemma get_ap_info_loop_silent_turn (index tries : Z) (last_error : err_t)
    (st : State) :
  0 <= tries ->
  ap_info_queue st = None ->
  ap_info_arrival (env st) (queue_waits st) = None ->
  exists st1,
    scan.get_ap_info_loop index tries last_error st
    = scan.get_ap_info_loop index (tries - 1)
        (if is_HAL_OK (next_tx_result st) then ERR_IF
         else hal_as_err (next_tx_result st)) st1
    /\ env st1 = env st
    /\ ap_info_queue st1 = None
    /\ uart_tx_log st1
       = uart_tx_log st
         ++ [(TxPrelude
                (fill_prelude (env st) (tx_message st) SCAN_AP_GET index []),
              next_tx_result st)].
Proof.
  intros Htries Hq Harr. rewrite scan.get_ap_info_loop_equation_1.
  destruct (Z_le_dec 0 tries); [|lia].
  rewrite scan.get_ap_info_loop_clause_1_equation_1. cbn zeta.
  rewrite espif_tx_raw_nullptr. rewrite hal_as_err_ok.
  destruct (is_HAL_OK (next_tx_result st)); cbn [negb].
  - unfold ap_info_queue_try_receive.
    cbn -[fill_prelude]. rewrite Hq, Harr.
    eexists. split; [reflexivity|]. cbn -[fill_prelude]. auto.
  - eexists. split; [reflexivity|]. cbn -[fill_prelude]. auto.
Qed.

Lemma get_ap_info_loop_silent (index : Z) (k : nat) :
  forall (tries : Z) (last_error : err_t) (st : State),
  Z.to_nat (tries + 1) = k -> -1 <= tries ->
  ap_info_queue st = None ->
  (forall j, ap_info_arrival (env st) j = None) ->
  exists sent,
    uart_tx_log (snd (scan.get_ap_info_loop index tries last_error st))
    = uart_tx_log st ++ sent
    /\ length sent = k
    /\ Forall (is_ap_get index) sent
    /\ fst (scan.get_ap_info_loop index tries last_error st)
       = (match k with
          | O => last_error
          | S k' =>
              let r := HAL_UART_Transmit_DMA (env st)
                         (length (uart_tx_log st) + k') in
              if is_HAL_OK r then ERR_IF else hal_as_err r
          end, None).
Proof.
  induction k as [|k IH]; intros tries last_error st Hk Hge Hq Harr.
  - rewrite get_ap_info_loop_done by lia. exists []. cbn.
    rewrite app_nil_r. auto.
  - destruct (get_ap_info_loop_silent_turn index tries last_error st)
      as (st1 & Heq & Henv & Hq1 & Hlog1); [lia | exact Hq | apply Harr |].
    rewrite Heq.
    destruct (IH (tries - 1)
                (if is_HAL_OK (next_tx_result st) then ERR_IF
                 else hal_as_err (next_tx_result st)) st1)
      as (sent & Hlog & Hlen & Hall & Hres);
      [lia | lia | exact Hq1 | now rewrite Henv |].
    eexists (_ :: sent). rewrite Hlog, Hlog1, <- app_assoc. cbn [app].
    split; [reflexivity|]. split; [cbn; now rewrite Hlen|].
    split; [constructor; [cbn; auto | exact Hall]|].
    rewrite Hres. f_equal. rewrite Henv, Hlog1, length_app. cbn [length].
    destruct k as [|k'].
    + unfold next_tx_result. now rewrite Nat.add_0_r.
    + cbn zeta. now replace (length (uart_tx_log st) + 1 + k')%nat
        with (length (uart_tx_log st) + S k')%nat by lia.
Qed.

(** C2 (the code departs from it).  When no reply reaches the queue,
    get_ap_info sends the SCAN_AP_GET request for [index] five times, not
    four, and then returns the error of the last attempt: the transmission's
    own if it failed, ERR_IF for the timeout otherwise. *)
Theorem get_ap_info_unanswered (index : Z) (st : State) :
  ap_info_queue st = None ->
  (forall j, ap_info_arrival (env st) j = None) ->
  let r := HAL_UART_Transmit_DMA (env st) (length (uart_tx_log st) + 4) in
  exists sent,
    uart_tx_log (snd (scan.get_ap_info index st)) = uart_tx_log st ++ sent
    /\ length sent = 5%nat
    /\ Forall (is_ap_get index) sent
    /\ fst (scan.get_ap_info index st)
       = (if is_HAL_OK r then ERR_IF else hal_as_err r, None).
Proof.
  intros Hq Harr. unfold scan.get_ap_info, bind, store.
  apply (get_ap_info_loop_silent index 5 4 ERR_OK
           (set_scan (set_scan_ap_index index (scan st)) st));
    [reflexivity | lia | exact Hq | exact Harr].
Qed.

Lemma get_ap_info_unanswered_witness :
  ap_info_queue (sample_state ESPIF_SCANNING_MODE) = None
  /\ (forall j,
        ap_info_arrival (env (sample_state ESPIF_SCANNING_MODE)) j = None)
  /\ length
       (uart_tx_log
          (snd (scan.get_ap_info 3 (sample_state ESPIF_SCANNING_MODE))))
     = 5%nat
  /\ fst (scan.get_ap_info 3 (sample_state ESPIF_SCANNING_MODE))
     = (ERR_IF, None).
Proof.
  split; [reflexivity|]. split; [intro j; reflexivity|].
  destruct (get_ap_info_unanswered 3 (sample_state ESPIF_SCANNING_MODE)
              eq_refl (fun j => eq_refl))
    as (sent & Hlog & Hlen & _ & Hres).
  split.
  - rewrite Hlog. cbn [sample_state uart_tx_log app]. exact Hlen.
  - exact Hres.
Defined.

(** When the ESP answers the third query, three requests are sent and the
    reply is returned. *)
Example get_ap_info_answered :
  let res := scan.get_ap_info 0
               (sample_state_in answering_env ESPIF_SCANNING_MODE) in
  fst res = (ERR_OK, Some {| APInfo.ssid := [104; 111; 109; 101];
                             APInfo.requires_password := true |})
  /\ length (uart_tx_log (snd res)) = 3%nat.
Proof. cbn zeta. split; vm_compute; reflexivity. Qed.

(** ** The transmit path in general *)

Lemma last_cons_default {A : Type} (a d : A) (l : list A) :
  last (a :: l) d = last l a.
Proof.
  revert a d. induction l as [|b l IH]; intros a d; [reflexivity|].
  change (last (a :: b :: l) d) with (last (b :: l) d).
  rewrite (IH b d). symmetry. apply IH.
Qed.

Lemma set_uart_tx_log_same (st : State) :
  set_uart_tx_log (uart_tx_log st) st = st.
Proof. destruct st; reflexivity. Qed.

(** The segment loop sends the payloads in order, stops behind the first
    transmission that fails, and touches nothing but the log. *)
Lemma espif_tx_segments_log (p : pbuf) :
  forall (st : State) (r0 : HAL_StatusTypeDef),
  exists sent rest,
    map TxSegment p = map fst sent ++ rest
    /\ snd (espif_tx_segments p r0 st)
       = set_uart_tx_log (uart_tx_log st ++ sent) st
    /\ Forall (fun e => snd e = HAL_OK) (removelast sent)
    /\ fst (espif_tx_segments p r0 st) = last (map snd sent) r0
    /\ (rest = [] \/ is_HAL_OK (last (map snd sent) r0) = false).
Proof.
  induction p as [|seg p IH]; intros st r0.
  - exists [], []. cbn. rewrite app_nil_r, set_uart_tx_log_same.
    repeat split; auto.
  - cbn [espif_tx_segments]. unfold bind, espif_tx_buffer.
    set (r := HAL_UART_Transmit_DMA (env st) (length (uart_tx_log st))).
    set (st1 := set_uart_tx_log (uart_tx_log st ++ [(TxSegment seg, r)]) st).
    destruct (is_HAL_OK r) eqn:Hr.
    + destruct (IH st1 r) as (sent & rest & Hmap & Hst & Hall & Hres & Hrest).
      exists ((TxSegment seg, r) :: sent), rest.
      split; [cbn; now rewrite Hmap|].
      split; [rewrite Hst; subst st1; cbn; now rewrite <- app_assoc|].
      split.
      { destruct sent as [|e sent']; [constructor|].
        change (removelast ((TxSegment seg, r) :: e :: sent'))
          with ((TxSegment seg, r) :: removelast (e :: sent')).
        constructor; [|exact Hall]. cbn. now destruct r. }
      cbn [map fst snd]. rewrite last_cons_default. auto.
    + exists [(TxSegment seg, r)], (map TxSegment p).
      cbn. unfold ret. cbn. rewrite Hr. repeat split; auto.
Qed.

(** What espif_tx_raw sends and what it leaves alone. *)
Lemma espif_tx_raw_sent
    (mt : MessageType) (vb : Z) (p : pbuf) (st : State) :
  let m := fill_prelude (env st) (tx_message st) mt vb p in
  exists sent rest,
    TxPrelude m :: map TxSegment p = map fst sent ++ rest
    /\ sent <> []
    /\ snd (espif_tx_raw mt vb p st)
       = set_uart_tx_log (uart_tx_log st ++ sent) (set_tx_message m st)
    /\ Forall (fun e => snd e = HAL_OK) (removelast sent)
    /\ fst (espif_tx_raw mt vb p st)
       = hal_as_err (last (map snd sent) HAL_OK)
    /\ (rest = [] \/ fst (espif_tx_raw mt vb p st) <> ERR_OK)
    /\ intron m = intron (tx_message st).
Proof.
  cbn zeta. set (m := fill_prelude (env st) (tx_message st) mt vb p).
  unfold espif_tx_raw, bind, store, load, espif_tx_buffer, ret.
  cbn -[fill_prelude espif_tx_segments]. fold m.
  set (r := HAL_UART_Transmit_DMA (env st) (length (uart_tx_log st))).
  set (st1 := set_uart_tx_log (uart_tx_log st ++ [(TxPrelude m, r)])
                (set_tx_message m st)).
  destruct (is_HAL_OK r) eqn:Hr.
  - destruct (espif_tx_segments_log p st1 r)
      as (sent & rest & Hmap & Hst & Hall & Hres & Hrest).
    destruct (espif_tx_segments p r st1) as [r' st'] eqn:Hrun.
    cbn [fst snd] in *.
    exists ((TxPrelude m, r) :: sent), rest.
    split; [cbn; now rewrite Hmap|].
    split; [discriminate|].
    split; [rewrite Hst; subst st1; cbn; now rewrite <- app_assoc|].
    split.
    { destruct sent as [|e sent']; [constructor|].
      change (removelast ((TxPrelude m, r) :: e :: sent'))
        with ((TxPrelude m, r) :: removelast (e :: sent')).
      constructor; [|exact Hall]. cbn. now destruct r. }
    cbn [map fst snd]. rewrite last_cons_default, <- Hres.
    split; [reflexivity|]. split; [|reflexivity].
    destruct Hrest as [Hrest|Hrest]; [now left|right].
    rewrite <- Hres in Hrest. destruct r'; cbn in *; discriminate.
  - exists [(TxPrelude m, r)], (map TxSegment p). cbn.
    split; [reflexivity|]. split; [discriminate|].
    split; [reflexivity|]. split; [constructor|].
    split; [reflexivity|]. split; [|reflexivity].
    right. destruct r; cbn in *; discriminate.
Qed.

(** X1.  espif_tx_raw transmits the prelude and then the segments of the
    chain in order, and stops behind the first transmission that fails: what
    it sent is a non-empty prefix of prelude-then-segments in which every
    transmission but the last succeeded; it returns the status of the last
    one, and whenever something was left unsent that status is an error.  It
    changes the header and checksum of [tx_message] and the log, and nothing
    else: not the intron, the operating mode or the scan data. *)
Theorem espif_tx_raw_stops_at_first_failure
    (mt : MessageType) (vb : Z) (p : pbuf) (st : State) :
  let m := fill_prelude (env st) (tx_message st) mt vb p in
  exists sent rest,
    TxPrelude m :: map TxSegment p = map fst sent ++ rest
    /\ sent <> []
    /\ snd (espif_tx_raw mt vb p st)
       = set_uart_tx_log (uart_tx_log st ++ sent) (set_tx_message m st)
    /\ Forall (fun e => snd e = HAL_OK) (removelast sent)
    /\ fst (espif_tx_raw mt vb p st)
       = hal_as_err (last (map snd sent) HAL_OK)
    /\ (rest = [] \/ fst (espif_tx_raw mt vb p st) <> ERR_OK)
    /\ intron m = intron (tx_message st).
Proof. exact (espif_tx_raw_sent mt vb p st). Qed.

(** ** Byte order of the prelude *)

Lemma land_255 (x : Z) : Z.land x 255 = x mod 256.
Proof. change 255 with (Z.ones 8). now rewrite Z.land_ones by lia. Qed.

Lemma shiftr_8 (x : Z) : Z.shiftr x 8 = x / 256.
Proof. now rewrite Z.shiftr_div_pow2 by lia. Qed.

Lemma lor_high_low (h l : Z) :
  0 <= l < 256 -> Z.lor (Z.shiftl h 8) l = h * 256 + l.
Proof.
  intro Hl. rewrite <- Z.lxor_lor, <- Z.add_nocarry_lxor.
  - now rewrite Z.shiftl_mul_pow2 by lia.
  - apply Z.bits_inj'. intros n Hn. rewrite Z.land_spec, Z.bits_0.
    destruct (Z.ltb_spec n 8).
    + rewrite Z.shiftl_spec_low by lia. reflexivity.
    + rewrite (Z.bits_above_log2 l n), andb_false_r; [reflexivity|lia|].
      destruct (Z.eq_dec l 0) as [->|Hne]; [cbn; lia|].
      apply Z.log2_lt_pow2; [lia|].
      apply Z.lt_le_trans with (2 ^ 8); [cbn; lia|].
      apply Z.pow_le_mono_r; lia.
  - apply Z.bits_inj'. intros n Hn. rewrite Z.land_spec, Z.bits_0.
    destruct (Z.ltb_spec n 8).
    + rewrite Z.shiftl_spec_low by lia. reflexivity.
    + rewrite (Z.bits_above_log2 l n), andb_false_r; [reflexivity|lia|].
      destruct (Z.eq_dec l 0) as [->|Hne]; [cbn; lia|].
      apply Z.log2_lt_pow2; [lia|].
      apply Z.lt_le_trans with (2 ^ 8); [cbn; lia|].
      apply Z.pow_le_mono_r; lia.
Qed.

Lemma htons_value (x : Z) :
  0 <= x < 65536 -> htons x = (x mod 256) * 256 + x / 256.
Proof.
  intro Hx. unfold htons. rewrite !land_255, shiftr_8.
  assert (0 <= x / 256 < 256)
    by (split; [apply Z.div_pos; lia | apply Z.div_lt_upper_bound; lia]).
  rewrite (Z.mod_small (x / 256)) by lia.
  apply lor_high_low. lia.
Qed.

Lemma two_bytes (h l : Z) :
  0 <= l < 256 -> (h * 256 + l) mod 256 = l /\ (h * 256 + l) / 256 = h.
Proof.
  intro Hl. split.
  - rewrite Z.add_comm, Z.mod_add by lia. apply Z.mod_small. exact Hl.
  - rewrite Z.add_comm, Z.div_add by lia. rewrite Z.div_small by lia. lia.
Qed.

(** htons is its own inverse on 16-bit values. *)
Lemma htons_involutive (x : Z) : 0 <= x < 65536 -> htons (htons x) = x.
Proof.
  intro Hx. rewrite (htons_value x Hx).
  assert (Hq : 0 <= x / 256 < 256)
    by (split; [apply Z.div_pos; lia | apply Z.div_lt_upper_bound; lia]).
  assert (Hr : 0 <= x mod 256 < 256) by (apply Z.mod_pos_bound; lia).
  destruct (two_bytes (x mod 256) (x / 256) Hq) as [Hlo Hhi].
  rewrite htons_value by lia. rewrite Hlo, Hhi.
  pose proof (Z.div_mod x 256). lia.
Qed.

(** X2.  The payload length goes onto the wire most significant byte first:
    the four header bytes that espif_tx_raw checksums and transmits are the
    type, the variable byte, and the high and low byte of the chain's total
    length. *)
Theorem prelude_size_big_endian
    (E : Env) (m : MessagePrelude) (mt : MessageType) (vb : Z) (p : pbuf) :
  let len := tot_len p mod 65536 in
  header_bytes E (header (fill_prelude E m mt vb p))
  = [message_type_code E mt; vb; len / 256; len mod 256].
Proof.
  cbn zeta. unfold header_bytes, fill_prelude.
  cbn [header type variable_byte size].
  assert (Hlen : 0 <= tot_len p mod 65536 < 65536)
    by (apply Z.mod_pos_bound; lia).
  set (len := tot_len p mod 65536) in *.
  assert (Hq : 0 <= len / 256 < 256)
    by (split; [apply Z.div_pos; lia | apply Z.div_lt_upper_bound; lia]).
  assert (Hr : 0 <= len mod 256 < 256) by (apply Z.mod_pos_bound; lia).
  destruct (two_bytes (len mod 256) (len / 256) Hq) as [Hlo Hhi].
  rewrite !land_255, shiftr_8, htons_value by lia.
  rewrite Hlo, Hhi. rewrite !Z.mod_small by lia. reflexivity.
Qed.

(** ** Sending packets *)

Lemma all_ok_of_last_ok (sent : list (TxData * HAL_StatusTypeDef)) :
  Forall (fun e => snd e = HAL_OK) (removelast sent) ->
  last (map snd sent) HAL_OK = HAL_OK ->
  Forall (fun e => snd e = HAL_OK) sent.
Proof.
  induction sent as [|e sent IH]; intros Hall Hlast; [constructor|].
  destruct sent as [|e' sent'].
  - constructor; [exact Hlast | constructor].
  - change (removelast (e :: e' :: sent'))
      with (e :: removelast (e' :: sent')) in Hall.
    inversion Hall as [|? ? He Hrest]; subst.
    constructor; [exact He|]. apply IH; [exact Hrest | exact Hlast].
Qed.

(** X3.  low_level_output returns ERR_OK or ERR_IF and nothing else, and
    never changes the operating mode or the intron.  Outside the running
    modes it returns ERR_IF and leaves the whole state untouched, the log
    included.  In a running mode it sends a PACKET_V2 frame with the up byte
    set: ERR_OK means the prelude and every segment of the chain were
    transmitted and each transmission succeeded; ERR_IF means that the last
    transmission made failed. *)
Theorem low_level_output_outcome (p : pbuf) (st : State) :
  let m := fill_prelude (env st) (tx_message st) PACKET_V2 1 p in
  let res := low_level_output p st in
  esp_operating_mode (snd res) = esp_operating_mode st
  /\ intron (tx_message (snd res)) = intron (tx_message st)
  /\ if is_running (esp_operating_mode st)
     then exists sent rest,
         TxPrelude m :: map TxSegment p = map fst sent ++ rest
         /\ uart_tx_log (snd res) = uart_tx_log st ++ sent
         /\ ((fst res = ERR_OK /\ rest = []
              /\ Forall (fun e => snd e = HAL_OK) sent)
             \/ (fst res = ERR_IF
                 /\ is_HAL_OK (last (map snd sent) HAL_OK) = false))
     else res = (ERR_IF, st).
Proof.
  cbn zeta. unfold low_level_output, bind, load, espif_tx_msg_packet.
  destruct (is_running (esp_operating_mode st)); cbn [negb].
  2: { cbn. repeat split. }
  destruct (espif_tx_raw_sent PACKET_V2 1 p st)
    as (sent & rest & Hmap & Hne & Hst & Hall & Hres & Hrest & Hintron).
  destruct (espif_tx_raw PACKET_V2 1 p st) as [err st'] eqn:Hrun.
  cbn [fst snd] in *. subst st'.
  split; [destruct (negb (err =? ERR_OK)); reflexivity|].
  split; [destruct (negb (err =? ERR_OK)); cbn; exact Hintron|].
  exists sent, rest. split; [exact Hmap|].
  split; [destruct (negb (err =? ERR_OK)); reflexivity|].
  destruct (last (map snd sent) HAL_OK) eqn:Hlast; subst err; cbn.
  - left. split; [reflexivity|]. split.
    + destruct Hrest as [Hrest|Hrest]; [exact Hrest | now elim Hrest].
    + apply all_ok_of_last_ok; assumption.
  - right. split; reflexivity.
  - right. split; reflexivity.
  - right. split; reflexivity.
Qed.

(** ** Joining an access point *)

(** The intron espif_tx_msg_clientconfig_v2 proposes in [st]. *)
Lemma clientconfig_outcome (ssid pass : list Z) (st : State) :
  let res := espif_tx_msg_clientconfig_v2 ssid pass st in
  esp_operating_mode (snd res) = esp_operating_mode st
  /\ scan (snd res) = scan st
  /\ env (snd res) = env st
  /\ intron (tx_message (snd res))
     = (if fst res =? ERR_OK then proposed_intron st
        else intron (tx_message st))
  /\ (ScanData.is_running (scan st) = true -> res = (ERR_IF, st)).
Proof.
  cbn zeta. unfold espif_tx_msg_clientconfig_v2, proposed_intron, bind, load.
  destruct (ScanData.is_running (scan st)) eqn:Hrun.
  { cbn. repeat split. }
  cbn [rand_bytes]. unfold rand_u8, pbuf_alloc, bind, ret.
  cbn -[fill_prelude espif_tx_raw clientconfig_payload Z.modulo Z.eqb].
  destruct (pbuf_alloc_ok (env st) (alloc_calls st)) eqn:Halloc;
    cbn -[fill_prelude espif_tx_raw clientconfig_payload Z.modulo Z.eqb].
  2: { repeat split. discriminate. }
  rewrite espif_tx_raw_single.
  cbn -[fill_prelude clientconfig_payload Z.modulo Z.eqb].
  unfold next_tx_result.
  cbn -[fill_prelude clientconfig_payload Z.modulo Z.eqb].
  destruct (HAL_UART_Transmit_DMA (env st) (length (uart_tx_log st)));
    cbn -[fill_prelude clientconfig_payload Z.modulo];
    try (repeat split; discriminate).
  destruct (HAL_UART_Transmit_DMA (env st) (S (length (uart_tx_log st))));
    cbn -[fill_prelude clientconfig_payload Z.modulo];
    repeat split; discriminate.
Qed.

(** A run of frames goes out under the intron that is active at its start,
    and leaves it active. *)
Lemma espif_tx_raws_intron (frames : list (MessageType * Z * pbuf)) :
  forall st,
  exists sent,
    uart_tx_log (snd (espif_tx_raws frames st)) = uart_tx_log st ++ sent
    /\ Forall (sent_under (intron (tx_message st))) sent
    /\ intron (tx_message (snd (espif_tx_raws frames st)))
       = intron (tx_message st).
Proof.
  induction frames as [|[[mt vb] p] frames IH]; intro st.
  - exists []. cbn. rewrite app_nil_r. auto.
  - cbn [espif_tx_raws]. unfold bind.
    destruct (espif_tx_raw_sent mt vb p st)
      as (sent & rest & Hmap & _ & Hst & _ & _ & _ & Hin).
    destruct (espif_tx_raw mt vb p st) as [err st1]. cbn [snd] in Hst.
    assert (Hlog1 : uart_tx_log st1 = uart_tx_log st ++ sent)
      by (rewrite Hst; reflexivity).
    assert (Hin1 : intron (tx_message st1) = intron (tx_message st))
      by (rewrite Hst; cbn -[fill_prelude]; exact Hin).
    assert (Hsent : Forall (sent_under (intron (tx_message st))) sent).
    { assert (Hall : Forall
                       (fun d => match d with
                                 | TxPrelude m =>
                                     intron m = intron (tx_message st)
                                 | TxSegment _ => True
                                 end)
                       (map fst sent ++ rest)).
      { rewrite <- Hmap. constructor; [exact Hin|].
        apply Forall_forall. intros d Hd. apply in_map_iff in Hd.
        destruct Hd as (seg & <- & _). exact I. }
      apply Forall_app in Hall. destruct Hall as [Hall _].
      apply Forall_forall. intros e He. unfold sent_under.
      rewrite Forall_forall in Hall. apply (Hall (fst e)).
      now apply in_map. }
    destruct (IH st1) as (sent' & Hlog & Hall' & Hin').
    exists (sent ++ sent'). rewrite Hlog, Hlog1, Hin', Hin1, <- app_assoc.
    split; [reflexivity|]. split; [|reflexivity].
    apply Forall_app. split; [exact Hsent|]. now rewrite <- Hin1.
Qed.

(** X4.  espif_join_ap is refused with ERR_IF, the state untouched, outside
    the running modes.  In a running mode it either returns ERR_OK, and then
    the mode is ConnectingAp and the proposed intron is the active one, or it
    returns an error and leaves mode and intron as they were.  After a
    successful join every frame of whatever run of espif_tx_raw calls
    follows goes out under the new intron, which stays the active one; an
    espif_reset puts the tail 0, 1, 2, 3 back behind its first two bytes. *)
Theorem espif_join_ap_outcome (ssid pass : list Z) (st : State) :
  let res := espif_join_ap ssid pass st in
  let st' := snd res in
  let old := intron (tx_message st) in
  if is_running (esp_operating_mode st)
  then (fst res = ERR_OK
        /\ esp_operating_mode st' = ESPIF_CONNECTING_AP
        /\ intron (tx_message st') = proposed_intron st
        /\ (forall frames,
              exists sent,
                uart_tx_log (snd (espif_tx_raws frames st'))
                = uart_tx_log st' ++ sent
                /\ Forall (sent_under (proposed_intron st)) sent
                /\ intron (tx_message (snd (espif_tx_raws frames st')))
                   = proposed_intron st)
        /\ intron (tx_message (snd (espif_reset st')))
           = [nth 0 old 0; nth 1 old 0; 0; 1; 2; 3])
       \/ (fst res <> ERR_OK
           /\ esp_operating_mode st' = esp_operating_mode st
           /\ intron (tx_message st') = intron (tx_message st))
  else res = (ERR_IF, st).
Proof.
  cbn zeta. unfold espif_join_ap, bind, load.
  destruct (is_running (esp_operating_mode st)); cbn [negb]; [|reflexivity].
  destruct (clientconfig_outcome ssid pass st)
    as (Hmode & _ & _ & Hintron & _).
  destruct (espif_tx_msg_clientconfig_v2 ssid pass st) as [err st1] eqn:Hcfg.
  cbn [fst snd] in *. unfold when, store, ret.
  destruct (err =? ERR_OK) eqn:Herr; cbn [fst snd].
  - left. apply Z.eqb_eq in Herr. split; [exact Herr|].
    split; [reflexivity|]. split; [exact Hintron|]. split.
    + intro frames.
      destruct (espif_tx_raws_intron frames
                  (set_esp_operating_mode ESPIF_CONNECTING_AP st1))
        as (sent & Hlog & Hall & Hin).
      cbn [tx_message set_esp_operating_mode] in Hall, Hin.
      rewrite Hintron in Hall, Hin. exists sent. auto.
    + unfold espif_reset, reset_intron, force_down, process_link_change,
        hard_reset_device, uart_rx_parser_reset, rx, bind, load, store, when,
        exchange_associated, netif_call, ret.
      cbn. rewrite Hintron. unfold proposed_intron.
      destruct (associated st1); reflexivity.
  - right. apply Z.eqb_neq in Herr. auto.
Qed.

(** Joining, then a reset, then a packet: the packet goes out under the
    default intron again. *)
Example frame_after_join_and_reset :
  let joined := snd (espif_join_ap [97; 98] [99] (sample_state ESPIF_NEED_AP)) in
  let st := snd (low_level_output [[1; 2]] (snd (espif_reset joined))) in
  intron (tx_message joined) = [85; 78; 44; 81; 118; 155]
  /\ intron (tx_message st) = [85; 78; 0; 1; 2; 3].
Proof. cbn zeta. split; reflexivity. Qed.

(** X5.  While the scan-running flag is set espif_join_ap is refused in
    every operating mode, and espif_reset does not clear the flag: a reset
    in the middle of a scan leaves join refused, with ERR_IF and no effect,
    until the scan is stopped. *)
Theorem join_refused_while_scan_flag_set (ssid pass : list Z) (st : State) :
  ScanData.is_running (scan st) = true ->
  espif_join_ap ssid pass st = (ERR_IF, st)
  /\ ScanData.is_running (scan (snd (espif_reset st))) = true
  /\ espif_join_ap ssid pass (snd (espif_reset st))
     = (ERR_IF, snd (espif_reset st)).
Proof.
  intro Hrun.
  assert (Hjoin : forall s, ScanData.is_running (scan s) = true ->
                            espif_join_ap ssid pass s = (ERR_IF, s)).
  { intros s Hs. unfold espif_join_ap, bind, load.
    destruct (is_running (esp_operating_mode s)); cbn [negb]; [|reflexivity].
    destruct (clientconfig_outcome ssid pass s) as (_ & _ & _ & _ & Hrefused).
    rewrite (Hrefused Hs). reflexivity. }
  assert (Hreset : scan (snd (espif_reset st)) = scan st).
  { unfold espif_reset, bind, load.
    destruct (can_recieve_data (esp_operating_mode st)); cbn [negb];
      [|reflexivity].
    unfold reset_intron, force_down, process_link_change, hard_reset_device,
      uart_rx_parser_reset, rx, bind, store, when, exchange_associated,
      netif_call, ret.
    cbn. destruct (associated st); reflexivity. }
  split; [apply Hjoin; exact Hrun|].
  split; [rewrite Hreset; exact Hrun|].
  apply Hjoin. rewrite Hreset. exact Hrun.
Qed.

Lemma join_refused_while_scan_flag_set_witness :
  ScanData.is_running (scan scan_in_progress) = true
  /\ esp_operating_mode (snd (espif_reset scan_in_progress)) = ESPIF_WAIT_INIT
  /\ fst (espif_join_ap [97; 98] [99] (snd (espif_reset scan_in_progress)))
     = ERR_IF.
Proof.
  split; [reflexivity|]. split; [reflexivity|].
  destruct (join_refused_while_scan_flag_set [97; 98] [99] scan_in_progress
              eq_refl) as (_ & _ & H).
  rewrite H. reflexivity.
Defined.

(** ** The health check *)

Lemma espif_tick_eq (st : State) :
  let c := init_countdown st in
  let st0 := if 0 <? c then set_init_countdown (c - 1) st else st in
  let st1 := set_seen_rx_packet false (set_seen_intron false st0) in
  let m := fill_prelude (env st) (tx_message st) PACKET_V2 1 [] in
  espif_tick st
  = if associated st
    then (seen_intron st,
          if negb (seen_rx_packet st) && is_running (esp_operating_mode st)
          then set_uart_tx_log
                 (uart_tx_log st ++ [(TxPrelude m, next_tx_result st)])
                 (set_tx_message m st1)
          else st1)
    else (false, st0).
Proof.
  cbn zeta. unfold espif_tick, espif_link, bind, load, when, store, ret,
    exchange_seen_intron, exchange_seen_rx_packet, espif_tx_msg_packet.
  destruct (0 <? init_countdown st); cbn -[espif_tx_raw fill_prelude];
    destruct (associated st); cbn -[espif_tx_raw fill_prelude];
    try reflexivity;
    destruct (seen_rx_packet st); cbn -[espif_tx_raw fill_prelude];
    try reflexivity;
    destruct (is_running (esp_operating_mode st));
    cbn -[espif_tx_raw fill_prelude]; try reflexivity;
    rewrite espif_tx_raw_nullptr; reflexivity.
Qed.

(** What a health check leaves alone, and what it does to the countdown. *)
Lemma espif_tick_frame (st : State) :
  let st' := snd (espif_tick st) in
  esp_operating_mode st' = esp_operating_mode st
  /\ esp_detected st' = esp_detected st
  /\ esp_was_ok st' = esp_was_ok st
  /\ associated st' = associated st
  /\ env st' = env st
  /\ init_countdown st'
     = (if 0 <? init_countdown st then init_countdown st - 1
        else init_countdown st).
Proof.
  cbn zeta. rewrite espif_tick_eq. cbn zeta.
  destruct (associated st) eqn:Ha; cbn [snd];
    [destruct (negb (seen_rx_packet st) && is_running (esp_operating_mode st))|];
    destruct (0 <? init_countdown st); cbn; repeat split; exact Ha.
Qed.

Lemma espif_ticks_frame (n : nat) :
  forall st,
  let st' := snd (espif_ticks n st) in
  0 <= init_countdown st ->
  esp_operating_mode st' = esp_operating_mode st
  /\ esp_detected st' = esp_detected st
  /\ esp_was_ok st' = esp_was_ok st
  /\ init_countdown st' = Z.max 0 (init_countdown st - Z.of_nat n).
Proof.
  induction n as [|n IH]; intros st st' Hc.
  - subst st'. cbn. repeat split. lia.
  - subst st'. cbn [espif_ticks]. unfold bind, ret.
    destruct (espif_tick_frame st) as (Hm & Hd & Hw & _ & _ & Hcount).
    destruct (espif_tick st) as [alive st1]. cbn [snd] in *.
    assert (Hc1 : 0 <= init_countdown st1).
    { rewrite Hcount. destruct (Z.ltb_spec 0 (init_countdown st)); lia. }
    destruct (IH st1 Hc1) as (Hm' & Hd' & Hw' & Hcount').
    destruct (espif_ticks n st1) as [rest st2]. cbn [snd] in *.
    rewrite Hm', Hd', Hw', Hcount', Hm, Hd, Hw, Hcount.
    repeat split. destruct (Z.ltb_spec 0 (init_countdown st)); lia.
Qed.

(** X6.  The start-up countdown is decremented once per health check and
    stops at zero.  Hence an ESP that was detected but never reported its
    firmware is shown as Unknown for as many health checks as the countdown
    holds (20 from start-up, ten seconds) and as NoFirmware from then on. *)
Theorem no_firmware_after_countdown (n : nat) (st : State) :
  0 <= init_countdown st ->
  esp_operating_mode st = ESPIF_WAIT_INIT ->
  esp_detected st = true ->
  esp_was_ok st = false ->
  let st' := snd (espif_ticks n st) in
  init_countdown st' = Z.max 0 (init_countdown st - Z.of_nat n)
  /\ esp_fw_state st'
     = (if Z.of_nat n <? init_countdown st then EspFwState.Unknown
        else EspFwState.NoFirmware).
Proof.
  intros Hc Hmode Hdet Hok st'.
  destruct (espif_ticks_frame n st Hc) as (Hm & Hd & Hw & Hcount).
  fold st' in Hm, Hd, Hw, Hcount.
  split; [exact Hcount|].
  unfold esp_fw_state. rewrite Hm, Hd, Hw, Hmode, Hdet, Hok, Hcount.
  destruct (Z.ltb_spec (Z.of_nat n) (init_countdown st));
    destruct (Z.ltb_spec 0 (Z.max 0 (init_countdown st - Z.of_nat n)));
    try reflexivity; lia.
Qed.

Lemma no_firmware_after_countdown_witness :
  esp_fw_state (snd (espif_ticks 19 esp_without_firmware)) = EspFwState.Unknown
  /\ esp_fw_state (snd (espif_ticks 20 esp_without_firmware))
     = EspFwState.NoFirmware.
Proof.
  split.
  - destruct (no_firmware_after_countdown 19 esp_without_firmware)
      as (_ & H); [cbn; lia | reflexivity | reflexivity | reflexivity |].
    exact H.
  - destruct (no_firmware_after_countdown 20 esp_without_firmware)
      as (_ & H); [cbn; lia | reflexivity | reflexivity | reflexivity |].
    exact H.
Defined.

(** One health check on a link that is up, silent and in a running mode. *)
Lemma espif_tick_silent (st : State) :
  associated st = true ->
  is_running (esp_operating_mode st) = true ->
  seen_intron st = false ->
  seen_rx_packet st = false ->
  let st' := snd (espif_tick st) in
  fst (espif_tick st) = false
  /\ associated st' = true
  /\ esp_operating_mode st' = esp_operating_mode st
  /\ seen_intron st' = false
  /\ seen_rx_packet st' = false
  /\ exists e, uart_tx_log st' = uart_tx_log st ++ [e] /\ is_keepalive e.
Proof.
  intros Ha Hr Hi Hp. cbn zeta. rewrite espif_tick_eq. cbn zeta.
  rewrite Ha, Hr, Hp. cbn [negb andb fst snd].
  split; [exact Hi|].
  destruct (0 <? init_countdown st); cbn -[fill_prelude];
    repeat split; auto; eexists; (split; [reflexivity|]);
    unfold is_keepalive; cbn; repeat split.
Qed.

(** X7.  On a link that is up and silent, in a running mode, every health
    check returns false and sends exactly one keepalive, a PACKET_V2 prelude
    that announces no payload: [n] checks in a row return false [n] times
    and add [n] keepalives to what was transmitted. *)
Theorem silent_link_keepalives (n : nat) :
  forall st,
  associated st = true ->
  is_running (esp_operating_mode st) = true ->
  seen_intron st = false ->
  seen_rx_packet st = false ->
  fst (espif_ticks n st) = repeat false n
  /\ exists sent,
       uart_tx_log (snd (espif_ticks n st)) = uart_tx_log st ++ sent
       /\ length sent = n
       /\ Forall is_keepalive sent.
Proof.
  induction n as [|n IH]; intros st Ha Hr Hi Hp.
  - cbn. split; [reflexivity|]. exists []. rewrite app_nil_r. auto.
  - cbn [espif_ticks repeat]. unfold bind, ret.
    destruct (espif_tick_silent st Ha Hr Hi Hp)
      as (Hres & Ha' & Hm' & Hi' & Hp' & e & Hlog & Hkeep).
    destruct (espif_tick st) as [alive st1]. cbn [fst snd] in *.
    rewrite <- Hm' in Hr.
    destruct (IH st1 Ha' Hr Hi' Hp') as (Hall & sent & Hlog' & Hlen & Hks).
    destruct (espif_ticks n st1) as [rest st2]. cbn [fst snd] in *.
    split; [now rewrite Hres, Hall|].
    exists (e :: sent). rewrite Hlog', Hlog, <- app_assoc.
    split; [reflexivity|]. split; [cbn; now rewrite Hlen|].
    constructor; assumption.
Qed.

Lemma silent_link_keepalives_witness :
  fst (espif_ticks 3 silent_link) = [false; false; false]
  /\ length (uart_tx_log (snd (espif_ticks 3 silent_link))) = 3%nat.
Proof.
  destruct (silent_link_keepalives 3 silent_link eq_refl eq_refl eq_refl
              eq_refl) as (Hres & sent & Hlog & Hlen & _).
  split; [exact Hres|]. rewrite Hlog. cbn [silent_link]. exact Hlen.
Defined.

(** ** Received packets *)



(** A packet without payload is delivered, with the link-up in front. *)
Example process_packet_empty_payload :
  exists st',
    process_packet empty_packet_received = Some (tt, st')
    /\ netif_log st' = [netifapi_netif_set_link_up; netif_input [[]]]
    /\ esp_operating_mode st' = ESPIF_RUNNING_MODE
    /\ seen_rx_packet st' = true.
Proof. eexists. split; [reflexivity|]. repeat split. Qed.

(** After the last byte of a payload the cursor is null, and the handler
    reads through it. *)
Example process_packet_after_full_payload :
  packet_buff_curr (uart_rx_parser packet_received) = None
  /\ process_packet packet_received = None.
Proof. split; reflexivity. Qed.

(** ** Device information *)

Lemma process_esp_device_info_eq (st : State) :
  let p := uart_rx_parser st in
  let s1 := if checksum_valid p then set_seen_intron true st else st in
  let s2 :=
    set_active_esp_netif
      {| hwaddr := hwaddr_of_buffer (buffer p);
         hwaddr_len := ETHARP_HWADDR_LEN |} s1 in
  process_esp_device_info st
  = (tt,
     if mode_eq_dec (esp_operating_mode st) ESPIF_WAIT_INIT
     then if version (header (msg p)) =? REQUIRED_PROTOCOL_VERSION (env st)
          then set_esp_was_ok true
                 (set_esp_operating_mode ESPIF_NEED_AP
                    (set_esp_operating_mode ESPIF_NEED_AP s2))
          else set_esp_operating_mode ESPIF_WRONG_FW
                 (set_esp_operating_mode ESPIF_NEED_AP s2)
     else s2).
Proof.
  cbn zeta.
  unfold process_esp_device_info, validate_checksum, compare_exchange_strong,
    bind, store, load, when, ret.
  destruct (checksum_valid (uart_rx_parser st)); cbn;
    destruct (mode_eq_dec (esp_operating_mode st) ESPIF_WAIT_INIT); cbn;
    try (destruct (version _ =? _); cbn); reflexivity.
Qed.

(** X9.  Handling the same DEVICE_INFO_V2 message a second time changes
    nothing: the handler acts on the operating mode only in WaitInit, which
    its first run leaves, so the repetition the ESP is known to send only
    rewrites the same MAC address. *)
Theorem process_esp_device_info_idempotent (st : State) :
  let st1 := snd (process_esp_device_info st) in
  snd (process_esp_device_info st1) = st1
  /\ esp_operating_mode st1 <> ESPIF_WAIT_INIT.
Proof.
  cbn zeta. rewrite (process_esp_device_info_eq st). cbn zeta. cbn [snd].
  set (st1 := if mode_eq_dec (esp_operating_mode st) ESPIF_WAIT_INIT
              then _ else _).
  assert (Hmode : esp_operating_mode st1 <> ESPIF_WAIT_INIT).
  { subst st1.
    destruct (mode_eq_dec (esp_operating_mode st) ESPIF_WAIT_INIT);
      [destruct (version _ =? _); cbn; discriminate|].
    destruct (checksum_valid (uart_rx_parser st)); cbn; assumption. }
  split; [|exact Hmode].
  rewrite (process_esp_device_info_eq st1). cbn zeta. cbn [snd].
  destruct (mode_eq_dec (esp_operating_mode st1) ESPIF_WAIT_INIT);
    [contradiction|].
  subst st1.
  destruct (mode_eq_dec (esp_operating_mode st) ESPIF_WAIT_INIT);
    [destruct (version _ =? _)|];
    destruct (checksum_valid (uart_rx_parser st)) eqn:Hv; cbn;
    rewrite ?Hv; reflexivity.
Qed.

(** X10.  In the modes that cannot receive data (Uninitialized,
    WrongFirmware, FlashErrorOther) the commands are all refused without
    effect: espif_reset does nothing, espif_join_ap and low_level_output
    return ERR_IF, and the state is the same after each. *)
Theorem commands_refused_when_deaf
    (ssid pass : list Z) (p : pbuf) (st : State) :
  can_recieve_data (esp_operating_mode st) = false ->
  espif_reset st = (tt, st)
  /\ espif_join_ap ssid pass st = (ERR_IF, st)
  /\ low_level_output p st = (ERR_IF, st).
Proof.
  intro H. unfold espif_reset, espif_join_ap, low_level_output, bind, load.
  rewrite H. cbn [negb].
  destruct (esp_operating_mode st); try discriminate H; cbn; repeat split.
Qed.

Lemma commands_refused_when_deaf_witness :
  esp_fw_state (sample_state ESPIF_WRONG_FW) = EspFwState.WrongVersion
  /\ snd (espif_reset (sample_state ESPIF_WRONG_FW))
     = sample_state ESPIF_WRONG_FW
  /\ fst (espif_join_ap [97] [98] (sample_state ESPIF_WRONG_FW)) = ERR_IF.
Proof.
  destruct (commands_refused_when_deaf [97] [98] []
              (sample_state ESPIF_WRONG_FW) eq_refl) as (Hr & Hj & _).
  split; [reflexivity|]. rewrite Hr, Hj. split; reflexivity.
Defined.

(** X11.  The result of a flash attempt decides whether a reset can bring
    the bridge back: after [failure] the mode is FlashErrorOther, which
    espif_reset refuses to leave; after [not_connected] and after [success]
    a reset ends in WaitInit.  The reported firmware state follows the
    mode. *)
Theorem reset_after_flash_result (st : State) :
  let after r := snd (espif_reset (snd (espif_notify_flash_result r st))) in
  esp_operating_mode (after failure) = ESPIF_FLASHING_ERROR_OTHER
  /\ esp_fw_state (after failure) = EspFwState.FlashingErrorOther
  /\ esp_operating_mode (after not_connected) = ESPIF_WAIT_INIT
  /\ esp_operating_mode (after success) = ESPIF_WAIT_INIT
  /\ esp_fw_state (snd (espif_notify_flash_result not_connected st))
     = EspFwState.FlashingErrorNotConnected.
Proof.
  cbn zeta.
  unfold espif_notify_flash_result, espif_reset, reset_intron, force_down,
    process_link_change, hard_reset_device, uart_rx_parser_reset, rx, bind,
    load, store, when, exchange_associated, netif_call, ret, esp_fw_state.
  cbn. destruct (associated st); cbn; repeat split.
Qed.

(** ** Scan queries in general *)

(** One turn of the loop of get_ap_info, whatever the ESP does. *)
Lemma get_ap_info_loop_turn (index tries : Z) (last_error : err_t)
    (st : State) :
  0 <= tries ->
  let m := fill_prelude (env st) (tx_message st) SCAN_AP_GET index [] in
  let r := next_tx_result st in
  let st1 :=
    set_uart_tx_log (uart_tx_log st ++ [(TxPrelude m, r)])
      (set_tx_message m st) in
  scan.get_ap_info_loop index tries last_error st
  = if is_HAL_OK r
    then match fst (ap_info_queue_try_receive st1) with
         | Some info => (ERR_OK, Some info, snd (ap_info_queue_try_receive st1))
         | None =>
             scan.get_ap_info_loop index (tries - 1) ERR_IF
               (snd (ap_info_queue_try_receive st1))
         end
    else scan.get_ap_info_loop index (tries - 1) (hal_as_err r) st1.
Proof.
  intro Htries. cbn zeta. rewrite scan.get_ap_info_loop_equation_1.
  destruct (Z_le_dec 0 tries); [|lia].
  rewrite scan.get_ap_info_loop_clause_1_equation_1. cbn zeta.
  rewrite espif_tx_raw_nullptr, hal_as_err_ok.
  destruct (is_HAL_OK (next_tx_result st)); cbn [negb]; [|reflexivity].
  destruct (ap_info_queue_try_receive _) as [[info|] st2]; reflexivity.
Qed.

Lemma ap_info_queue_try_receive_frame (st : State) :
  let st' := snd (ap_info_queue_try_receive st) in
  uart_tx_log st' = uart_tx_log st
  /\ scan st' = scan st
  /\ esp_operating_mode st' = esp_operating_mode st
  /\ env st' = env st
  /\ tx_message st' = tx_message st.
Proof.
  cbn zeta. unfold ap_info_queue_try_receive. cbn.
  destruct (ap_info_queue st); cbn; repeat split.
Qed.

Lemma get_ap_info_loop_bounded (index : Z) (k : nat) :
  forall (tries : Z) (last_error : err_t) (st : State),
  Z.to_nat (tries + 1) = k -> -1 <= tries ->
  let res := scan.get_ap_info_loop index tries last_error st in
  exists sent,
    uart_tx_log (snd res) = uart_tx_log st ++ sent
    /\ (length sent <= k)%nat
    /\ (k = 0%nat \/ 1 <= length sent)%nat
    /\ Forall (is_ap_get index) sent
    /\ scan (snd res) = scan st
    /\ esp_operating_mode (snd res) = esp_operating_mode st
    /\ intron (tx_message (snd res)) = intron (tx_message st)
    /\ ((exists info, fst res = (ERR_OK, Some info))
        \/ (snd (fst res) = None
            /\ (k = 0%nat /\ fst (fst res) = last_error
                \/ fst (fst res) <> ERR_OK))).
Proof.
  induction k as [|k IH]; intros tries last_error st Hk Hge; cbn zeta.
  - rewrite get_ap_info_loop_done by lia. exists []. cbn.
    rewrite app_nil_r. repeat split; auto.
  - rewrite get_ap_info_loop_turn by lia. cbn zeta.
    set (m := fill_prelude (env st) (tx_message st) SCAN_AP_GET index []).
    set (r := next_tx_result st).
    set (st1 := set_uart_tx_log (uart_tx_log st ++ [(TxPrelude m, r)])
                  (set_tx_message m st)).
    assert (Hget : is_ap_get index (TxPrelude m, r)) by (cbn; auto).
    destruct (is_HAL_OK r) eqn:Hr.
    + destruct (ap_info_queue_try_receive_frame st1)
        as (Hlog2 & Hscan2 & Hmode2 & _ & Htx2).
      destruct (ap_info_queue_try_receive st1) as [[info|] st2];
        cbn [fst snd] in *.
      * exists [(TxPrelude m, r)]. rewrite Hlog2, Hscan2, Hmode2, Htx2.
        subst st1. cbn -[fill_prelude].
        repeat split; auto; try lia. left. now exists info.
      * destruct (IH (tries - 1) ERR_IF st2)
          as (sent & Hlog & Hlen & _ & Hall & Hscan & Hmode & Hin & Hres);
          [lia | lia |].
        exists ((TxPrelude m, r) :: sent).
        rewrite Hlog, Hscan, Hmode, Hin, Hlog2, Hscan2, Hmode2, Htx2.
        subst st1. cbn -[fill_prelude]. rewrite <- app_assoc.
        split; [reflexivity|]. split; [lia|]. split; [right; lia|].
        split; [constructor; assumption|].
        repeat split.
        destruct Hres as [Hok | (Hnone & [(_ & Hlast) | Hne])];
          [left; exact Hok | right | right]; (split; [exact Hnone|]); right.
        -- rewrite Hlast. discriminate.
        -- exact Hne.
    + destruct (IH (tries - 1) (hal_as_err r) st1)
        as (sent & Hlog & Hlen & _ & Hall & Hscan & Hmode & Hin & Hres);
        [lia | lia |].
      exists ((TxPrelude m, r) :: sent).
      rewrite Hlog, Hscan, Hmode, Hin. subst st1. cbn -[fill_prelude].
      rewrite <- app_assoc.
      split; [reflexivity|]. split; [lia|]. split; [right; lia|].
      split; [constructor; assumption|].
      repeat split.
      destruct Hres as [Hok | (Hnone & [(_ & Hlast) | Hne])];
        [left; exact Hok | right | right]; (split; [exact Hnone|]); right.
      * rewrite Hlast. intro Hz. apply err_ok_is_HAL_OK in Hz. congruence.
      * exact Hne.
Qed.

(** X12.  In every case get_ap_info sends at least one and at most five
    SCAN_AP_GET requests for the index asked, records that index as the one
    being queried, and leaves the scan-running flag, the saved mode, the AP
    count, the operating mode and the intron alone.  It returns ERR_OK
    exactly when it has a reply to hand out; without a reply the result is
    an error. *)
Theorem get_ap_info_bounded (index : Z) (st : State) :
  let res := scan.get_ap_info index st in
  exists sent,
    uart_tx_log (snd res) = uart_tx_log st ++ sent
    /\ (1 <= length sent <= 5)%nat
    /\ Forall (is_ap_get index) sent
    /\ scan (snd res) = set_scan_ap_index index (scan st)
    /\ esp_operating_mode (snd res) = esp_operating_mode st
    /\ intron (tx_message (snd res)) = intron (tx_message st)
    /\ ((exists info, fst res = (ERR_OK, Some info))
        \/ (snd (fst res) = None /\ fst (fst res) <> ERR_OK)).
Proof.
  cbn zeta. unfold scan.get_ap_info, bind, store.
  destruct (get_ap_info_loop_bounded index 5 4 ERR_OK
              (set_scan (set_scan_ap_index index (scan st)) st))
    as (sent & Hlog & Hlen & Hone & Hall & Hscan & Hmode & Hin & Hres);
    [reflexivity | lia |].
  exists sent. cbn in Hlog, Hscan, Hmode, Hin.
  split; [exact Hlog|]. split; [destruct Hone; [discriminate | lia]|].
  split; [exact Hall|]. split; [exact Hscan|]. split; [exact Hmode|].
  split; [exact Hin|].
  destruct Hres as [Hok | (Hnone & [(Hk & _) | Hne])];
    [left; exact Hok | discriminate Hk | right; auto].
Qed.

(** X13.  get_ap_info does not look at what a queued reply answers: when a
    reply is already waiting in the queue and the request goes out, the call
    sends one request, takes that reply and returns it with ERR_OK, whatever
    index is asked for, and the queue is empty afterwards. *)
Theorem get_ap_info_takes_queued_reply
    (index : Z) (info : APInfo.t) (st : State) :
  ap_info_queue st = Some info ->
  next_tx_result st = HAL_OK ->
  let res := scan.get_ap_info index st in
  fst res = (ERR_OK, Some info)
  /\ length (uart_tx_log (snd res)) = S (length (uart_tx_log st))
  /\ ap_info_queue (snd res) = None.
Proof.
  intros Hq Hr. cbn zeta. unfold scan.get_ap_info, bind, store.
  rewrite get_ap_info_loop_turn by lia. cbn zeta.
  unfold next_tx_result in *. cbn -[fill_prelude]. rewrite Hr.
  cbn -[fill_prelude]. unfold ap_info_queue_try_receive.
  cbn -[fill_prelude]. rewrite Hq. cbn -[fill_prelude].
  rewrite length_app, Nat.add_comm. repeat split.
Qed.

Lemma get_ap_info_takes_queued_reply_witness :
  fst (scan.get_ap_info 0 reply_queued)
  = (ERR_OK, Some {| APInfo.ssid := [104; 111; 109; 101];
                     APInfo.requires_password := true |})
  /\ fst (scan.get_ap_info 5 reply_queued)
     = (ERR_OK, Some {| APInfo.ssid := [104; 111; 109; 101];
                        APInfo.requires_password := true |}).
Proof.
  split.
  - apply (get_ap_info_takes_queued_reply 0 _ reply_queued); reflexivity.
  - apply (get_ap_info_takes_queued_reply 5 _ reply_queued); reflexivity.
Defined.

(** X14.  A SCAN_AP_INFO reply reaches the queue only if its checksum
    matched and it answers the entry being queried: a reply with a bad
    checksum, or for another index than scan.ap_index (the one get_ap_info
    recorded last), leaves the queue, the scan data and the operating mode
    as they are. *)
Theorem reply_for_other_entry_dropped (st : State) :
  checksum_valid (uart_rx_parser st) = false
  \/ ap_index_of (header (msg (uart_rx_parser st)))
     <> ScanData.ap_index (scan st) ->
  let st' := snd (process_scan_ap_info st) in
  ap_info_queue st' = ap_info_queue st
  /\ scan st' = scan st
  /\ esp_operating_mode st' = esp_operating_mode st.
Proof.
  intro H. cbn zeta.
  unfold process_scan_ap_info, validate_checksum, bind, load, when, store, ret.
  destruct (checksum_valid (uart_rx_parser st)) eqn:Hvalid; cbn;
    [|repeat split].
  destruct H as [H|H]; [discriminate|].
  destruct (Z.eqb_spec (ap_index_of (header (msg (uart_rx_parser st))))
              (ScanData.ap_index (scan st))) as [He|Hne]; [contradiction|].
  cbn. repeat split.
Qed.

Lemma reply_for_other_entry_dropped_witness :
  checksum_valid (uart_rx_parser reply_for_other_entry) = true
  /\ ap_info_queue (snd (process_scan_ap_info reply_for_other_entry)) = None.
Proof.
  split; [reflexivity|].
  destruct (reply_for_other_entry_dropped reply_for_other_entry) as (H & _).
  - right. cbn. discriminate.
  - rewrite H. reflexivity.
Defined.

(** ** Polling the receive ring buffer *)

Lemma firstn_skipn_doubled {A : Type} (buf : list A) (off cnt : nat) :
  (off <= length buf)%nat -> (off + cnt <= length buf)%nat ->
  firstn cnt (skipn off (buf ++ buf)) = firstn cnt (skipn off buf).
Proof.
  intros Hoff Hcnt. rewrite skipn_app, firstn_app.
  rewrite length_skipn.
  replace (cnt - (length buf - off))%nat with 0%nat by lia.
  cbn. now rewrite app_nil_r.
Qed.

Lemma firstn_skipn_wrapped {A : Type} (buf : list A) (off cnt : nat) :
  (off <= length buf)%nat -> (cnt <= off)%nat ->
  firstn (length buf - off + cnt) (skipn off (buf ++ buf))
  = skipn off buf ++ firstn cnt buf.
Proof.
  intros Hoff Hcnt. rewrite skipn_app, firstn_app, length_skipn.
  replace (off - length buf)%nat with 0%nat by lia. cbn [skipn].
  rewrite firstn_all2 by (rewrite length_skipn; lia).
  f_equal.
  replace (length buf - off + cnt - (length buf - off))%nat with cnt by lia.
  reflexivity.
Qed.

(** X15.  With no UART error pending and in a mode that can receive,
    espif_input_once hands to uart_input exactly the bytes the DMA wrote
    since the last poll, in order and also across the end of the ring: the
    slices fed, put together, are the bytes from the old position up to the
    new one, going round the buffer.  It feeds at most two slices and never
    an empty one, and the position it remembers is the new one and lies
    inside the buffer. *)
Theorem espif_input_once_feeds_new_bytes
    (huart_init receive_dma : HAL_StatusTypeDef) (dma_bytes_left : Z)
    (d : RxDma) (st : State) :
  can_recieve_data (esp_operating_mode st) = true ->
  uart_error_occured d = false ->
  RX_BUFFER_LEN d < 4294967296 ->
  0 <= old_dma_pos d < RX_BUFFER_LEN d ->
  0 <= dma_bytes_left <= RX_BUFFER_LEN d ->
  let n := RX_BUFFER_LEN d in
  let pos := n - dma_bytes_left in
  let old := old_dma_pos d in
  let count := if old <=? pos then pos - old else n - old + pos in
  let res := fst (espif_input_once huart_init receive_dma dma_bytes_left d st) in
  concat (fst res)
  = firstn (Z.to_nat count)
      (skipn (Z.to_nat old) (dma_buffer_rx d ++ dma_buffer_rx d))
  /\ (length (fst res) <= 2)%nat
  /\ Forall (fun c => c <> []) (fst res)
  /\ old_dma_pos (snd res) = pos mod n
  /\ 0 <= old_dma_pos (snd res) < n
  /\ dma_buffer_rx (snd res) = dma_buffer_rx d.
Proof.
  intros Hmode Herr Hsize Hold Hleft. cbn zeta.
  unfold espif_input_once, uart_input, rx_slice, bind, load, store, ret.
  rewrite Hmode, Herr. cbn [negb].
  rewrite (Z.mod_small (RX_BUFFER_LEN d - dma_bytes_left)) by lia.
  unfold RX_BUFFER_LEN in *.
  set (buf := dma_buffer_rx d) in *.
  set (n := Z.of_nat (length buf)) in *.
  assert (Hlen : length buf = Z.to_nat n) by (subst n; lia).
  destruct (Z.eqb_spec (n - dma_bytes_left) (old_dma_pos d)) as [Heq|Hne].
  - cbn. rewrite <- Heq, Z.leb_refl, Z.sub_diag. cbn.
    rewrite Z.mod_small by lia. repeat split; auto; lia.
  - destruct (Z.ltb_spec (old_dma_pos d) (n - dma_bytes_left)) as [Hlt|Hge].
    + cbn [fst snd concat length].
      destruct (Z.leb_spec (old_dma_pos d) (n - dma_bytes_left)); [|lia].
      rewrite app_nil_r.
      split.
      { symmetry. apply firstn_skipn_doubled; lia. }
      split; [lia|]. split.
      { constructor; [|constructor]. intro Hnil.
        apply (f_equal (@length Z)) in Hnil.
        rewrite length_firstn, length_skipn in Hnil. cbn in Hnil. lia. }
      cbn. destruct (Z.eqb_spec (n - dma_bytes_left) n) as [Hn|Hn].
      * rewrite Hn, Z.mod_same by lia. repeat split; lia.
      * rewrite Z.mod_small by lia. repeat split; lia.
    + destruct (Z.leb_spec (old_dma_pos d) (n - dma_bytes_left)); [lia|].
      destruct (Z.ltb_spec 0 (n - dma_bytes_left)) as [Hpos|Hzero].
      * cbn [fst snd concat length]. rewrite app_nil_r.
        split.
        { replace (Z.to_nat (n - old_dma_pos d + (n - dma_bytes_left)))
            with (length buf - Z.to_nat (old_dma_pos d)
                  + Z.to_nat (n - dma_bytes_left))%nat by lia.
          rewrite firstn_skipn_wrapped by lia.
          f_equal. apply firstn_all2. rewrite length_skipn. lia. }
        split; [lia|]. split.
        { constructor; [|constructor; [|constructor]]; intro Hnil;
            apply (f_equal (@length Z)) in Hnil;
            rewrite length_firstn, ?length_skipn in Hnil; cbn in Hnil; lia. }
        cbn. destruct (Z.eqb_spec (n - dma_bytes_left) n) as [Hn|Hn]; [lia|].
        rewrite Z.mod_small by lia. repeat split; lia.
      * cbn [fst snd concat length]. rewrite app_nil_r.
        assert (Hp : n - dma_bytes_left = 0) by lia.
        split.
        { rewrite Hp, Z.add_0_r.
          replace (Z.to_nat (n - old_dma_pos d))
            with (length buf - Z.to_nat (old_dma_pos d) + 0)%nat by lia.
          rewrite firstn_skipn_wrapped by lia.
          cbn. rewrite app_nil_r. apply firstn_all2.
          rewrite length_skipn. lia. }
        split; [lia|]. split.
        { constructor; [|constructor]. intro Hnil.
          apply (f_equal (@length Z)) in Hnil.
          rewrite length_firstn, length_skipn in Hnil. cbn in Hnil. lia. }
        cbn. destruct (Z.eqb_spec (n - dma_bytes_left) n) as [Hn|Hn]; [lia|].
        rewrite Hp. cbn. repeat split; lia.
Qed.

Lemma espif_input_once_feeds_new_bytes_witness :
  fst (fst (espif_input_once HAL_OK HAL_OK 6 ring_wrapped
              (sample_state ESPIF_WAIT_INIT)))
  = [[16; 17]; [10; 11]]
  /\ old_dma_pos (snd (fst (espif_input_once HAL_OK HAL_OK 6 ring_wrapped
                              (sample_state ESPIF_WAIT_INIT)))) = 2.
Proof.
  destruct (espif_input_once_feeds_new_bytes HAL_OK HAL_OK 6 ring_wrapped
              (sample_state ESPIF_WAIT_INIT))
    as (_ & _ & _ & Hpos & _);
    [reflexivity | reflexivity | cbn; lia | cbn; lia | cbn; lia |].
  split; [reflexivity | exact Hpos].
Defined.

(** X16.  A pending UART error makes espif_input_once feed nothing: it
    clears the flag, and when both the UART and its receive DMA could be
    set up again it starts reading from position 0, which drops the bytes
    not yet read; when either failed it raises the flag again, so that the
    next poll retries, and keeps the position.  In a mode that cannot
    receive, the poll does nothing at all and the flag stays pending. *)
Theorem espif_input_once_recovers
    (huart_init receive_dma : HAL_StatusTypeDef) (dma_bytes_left : Z)
    (d : RxDma) (st : State) :
  uart_error_occured d = true ->
  let res := espif_input_once huart_init receive_dma dma_bytes_left d st in
  fst (fst res) = []
  /\ snd res = st
  /\ dma_buffer_rx (snd (fst res)) = dma_buffer_rx d
  /\ if can_recieve_data (esp_operating_mode st)
     then if is_HAL_OK huart_init && is_HAL_OK receive_dma
          then uart_error_occured (snd (fst res)) = false
               /\ old_dma_pos (snd (fst res)) = 0
          else uart_error_occured (snd (fst res)) = true
               /\ old_dma_pos (snd (fst res)) = old_dma_pos d
     else snd (fst res) = d.
Proof.
  intro Herr. cbn zeta. unfold espif_input_once, bind, load, ret.
  rewrite Herr.
  destruct (can_recieve_data (esp_operating_mode st)); cbn [negb];
    [|cbn; repeat split].
  destruct (is_HAL_OK huart_init); cbn [negb andb];
    [destruct (is_HAL_OK receive_dma); cbn [negb]|]; cbn; repeat split.
Qed.

Lemma espif_input_once_recovers_witness :
  let d := {| dma_buffer_rx := [1; 2; 3; 4]; old_dma_pos := 3;
              uart_error_occured := true |} in
  let res := espif_input_once HAL_OK HAL_OK 2 d (sample_state ESPIF_NEED_AP) in
  fst (fst res) = [] /\ old_dma_pos (snd (fst res)) = 0.
Proof.
  cbn zeta.
  destruct (espif_input_once_recovers HAL_OK HAL_OK 2
              {| dma_buffer_rx := [1; 2; 3; 4]; old_dma_pos := 3;
                 uart_error_occured := true |}
              (sample_state ESPIF_NEED_AP) eq_refl) as (Hfed & _ & _ & Hrec).
  cbn in Hrec. destruct Hrec as (_ & Hpos).
  split; [exact Hfed | exact Hpos].
Defined.

(** ** Filling the packet buffer *)

Lemma write_at_nil (buf : list Z) (off : nat) : write_at buf off [] = buf.
Proof.
  unfold write_at. cbn. rewrite Nat.add_0_r. apply firstn_skipn.
Qed.

Lemma write_at_length (buf : list Z) (off : nat) (data : list Z) :
  (off + length data <= length buf)%nat ->
  length (write_at buf off data) = length buf.
Proof.
  intro H. unfold write_at.
  rewrite !length_app, length_firstn, length_skipn. lia.
Qed.

(** Writing inside the middle one of three pieces. *)
Lemma write_at_middle (pre seg post : list Z) (off : nat) (data : list Z) :
  (off + length data <= length seg)%nat ->
  write_at (pre ++ seg ++ post) (length pre + off) data
  = pre ++ write_at seg off data ++ post.
Proof.
  intro H. unfold write_at.
  rewrite firstn_app, firstn_all2 by lia.
  replace (length pre + off - length pre)%nat with off by lia.
  rewrite firstn_app.
  replace (off - length seg)%nat with 0%nat by lia.
  rewrite skipn_app.
  rewrite (skipn_all2 pre) by lia.
  replace (length pre + off + length data - length pre)%nat
    with (off + length data)%nat by lia.
  rewrite skipn_app.
  replace (off + length data - length seg)%nat with 0%nat by lia.
  cbn [firstn skipn app]. rewrite app_nil_r, <- !app_assoc. reflexivity.
Qed.

(** Two writes one behind the other are one write. *)
Lemma write_at_twice (buf : list Z) (off : nat) (a b : list Z) :
  (off + length a + length b <= length buf)%nat ->
  write_at (write_at buf off a) (off + length a) b = write_at buf off (a ++ b).
Proof.
  intro H.
  assert (Hbuf : buf = firstn off buf
                       ++ firstn (length a) (skipn off buf)
                       ++ skipn (off + length a) buf).
  { rewrite <- (firstn_skipn off buf) at 1. f_equal.
    rewrite <- (firstn_skipn (length a) (skipn off buf)) at 1. f_equal.
    rewrite skipn_skipn. f_equal. lia. }
  set (pre := firstn off buf).
  set (rest := skipn (off + length a) buf).
  assert (Hpre : length pre = off) by (subst pre; rewrite length_firstn; lia).
  assert (Hrest : (length b <= length rest)%nat)
    by (subst rest; rewrite length_skipn; lia).
  assert (Hwa : write_at buf off a = (pre ++ a) ++ rest ++ []).
  { unfold write_at. fold pre rest. now rewrite app_nil_r, <- app_assoc. }
  rewrite Hwa.
  replace (off + length a)%nat with (length (pre ++ a) + 0)%nat
    by (rewrite length_app; lia).
  rewrite write_at_middle by (cbn; lia).
  unfold write_at at 1. cbn [firstn app]. rewrite app_nil_r.
  unfold write_at. fold pre. rewrite <- !app_assoc. do 3 f_equal.
  subst rest. rewrite skipn_skipn, length_app. f_equal. lia.
Qed.

Lemma set_segment_split (pre post : pbuf) (seg seg' : list Z) :
  set_segment (length pre) seg' (pre ++ seg :: post) = pre ++ seg' :: post.
Proof.
  unfold set_segment.
  rewrite firstn_app, Nat.sub_diag, firstn_all. cbn [firstn].
  rewrite app_nil_r. f_equal. f_equal.
  rewrite skipn_app, skipn_all2 by lia.
  replace (S (length pre) - length pre)%nat with 1%nat by lia. reflexivity.
Qed.

Lemma nth_error_split_at (pre post : pbuf) (seg : list Z) :
  nth_error (pre ++ seg :: post) (length pre) = Some seg.
Proof. rewrite nth_error_app2, Nat.sub_diag by lia. reflexivity. Qed.

Lemma filled_nothing (p : UartRxParser) : cursor_ok p -> filled p [] p.
Proof.
  intro H. unfold filled. rewrite write_at_nil, Nat.add_0_r. auto 10.
Qed.

Lemma filled_twice (p p1 p2 : UartRxParser) (a b : list Z) :
  (packet_pos p + length a + length b <= length (packet_bytes p))%nat ->
  filled p a p1 -> filled p1 b p2 -> filled p (a ++ b) p2.
Proof.
  intros Hfit (Hl1 & Hb1 & Hp1 & _ & Hm1 & Hc1 & Hf1)
    (Hl2 & Hb2 & Hp2 & Hok & Hm2 & Hc2 & Hf2).
  unfold filled.
  split; [congruence|]. split.
  { rewrite Hb2, Hb1, Hp1. now apply write_at_twice. }
  split; [rewrite Hp2, Hp1, length_app; lia|].
  split; [exact Hok|]. repeat split; congruence.
Qed.

Lemma update_packet_loop_turn (fuel : nat) (d : Z) (ds : list Z)
    (p : UartRxParser) (pre post : pbuf) (seg : list Z) :
  packet_buff_head p = Some (pre ++ seg :: post) ->
  packet_buff_curr p = Some (length pre) ->
  0 <= packet_buff_read p <= Z.of_nat (length seg) ->
  Z.of_nat (length seg) < 65536 ->
  Z.of_nat (length (d :: ds)) < 65536 ->
  let n := Nat.min (length seg - Z.to_nat (packet_buff_read p))
             (length (d :: ds)) in
  update_packet_loop (S fuel) (d :: ds) p
  = update_packet_loop fuel (skipn n (d :: ds))
      (after_turn p pre post seg n (d :: ds)).
Proof.
  intros Hhead Hcurr Hread Hseg Hdata n.
  cbn [update_packet_loop]. rewrite Hhead, Hcurr, nth_error_split_at.
  destruct (Z.ltb_spec (packet_buff_read p) 0); [lia|].
  destruct (Z.ltb_spec (Z.of_nat (length seg)) (packet_buff_read p)); [lia|].
  cbn [orb]. cbv zeta.
  rewrite (Z.mod_small (Z.of_nat (length seg) - packet_buff_read p)) by lia.
  rewrite (Z.mod_small (Z.of_nat (length (d :: ds)))) by lia.
  set (to_read := Z.min (Z.of_nat (length seg) - packet_buff_read p)
                    (Z.of_nat (length (d :: ds)))).
  assert (Hn : Z.to_nat to_read = n) by (subst to_read n; lia).
  assert (Hto : to_read = Z.of_nat n) by (subst to_read n; lia).
  rewrite Hn, set_segment_split.
  rewrite Z.mod_small by lia.
  unfold after_turn. cbv zeta.
  replace (Z.of_nat (Z.to_nat (packet_buff_read p) + n))
    with (packet_buff_read p + to_read) by lia.
  destruct (Z.eqb_spec (packet_buff_read p + to_read)
              (Z.of_nat (length seg))) as [He|Hne];
    destruct (Nat.eqb_spec (Z.to_nat (packet_buff_read p) + n) (length seg));
    try lia; [|reflexivity].
  do 3 f_equal. unfold next_segment.
  rewrite length_app. cbn [length].
  destruct post as [|post1 posts]; cbn [length].
  - destruct (Nat.ltb_spec (S (length pre)) (length pre + 1)); [lia|].
    reflexivity.
  - destruct (Nat.ltb_spec (S (length pre)) (length pre + S (S (length posts))));
      [reflexivity | lia].
Qed.

Lemma concat_split (pre post : pbuf) (seg : list Z) :
  concat (pre ++ seg :: post) = concat pre ++ seg ++ concat post.
Proof. now rewrite concat_app. Qed.

Lemma firstn_pre (pre post : pbuf) (seg : list Z) :
  firstn (length pre) (pre ++ seg :: post) = pre.
Proof. now rewrite firstn_app, Nat.sub_diag, firstn_all, app_nil_r. Qed.

Lemma firstn_pre_seg (pre post : pbuf) (seg : list Z) :
  firstn (S (length pre)) (pre ++ seg :: post) = pre ++ [seg].
Proof.
  rewrite firstn_app, firstn_all2 by lia.
  now replace (S (length pre) - length pre)%nat with 1%nat by lia.
Qed.

Lemma after_turn_filled (p : UartRxParser) (pre post : pbuf) (seg : list Z)
    (n : nat) (data : list Z) :
  packet_buff_head p = Some (pre ++ seg :: post) ->
  packet_buff_curr p = Some (length pre) ->
  0 <= packet_buff_read p <= Z.of_nat (length seg) ->
  (n <= length data)%nat ->
  (Z.to_nat (packet_buff_read p) + n <= length seg)%nat ->
  filled p (firstn n data) (after_turn p pre post seg n data).
Proof.
  intros Hhead Hcurr Hread Hn Hfit.
  set (r := Z.to_nat (packet_buff_read p)) in *.
  set (seg' := write_at seg r (firstn n data)).
  assert (Hlen : length seg' = length seg)
    by (apply write_at_length; rewrite length_firstn; lia).
  assert (Hfn : length (firstn n data) = n) by (rewrite length_firstn; lia).
  assert (Hbytes :
    concat (pre ++ seg' :: post)
    = write_at (concat (pre ++ seg :: post)) (length (concat pre) + r)
        (firstn n data)).
  { rewrite !concat_split. symmetry. apply write_at_middle. lia. }
  unfold filled, packet_pos, cursor_ok, packet_bytes, chain_of, after_turn.
  cbv zeta. fold r seg'. rewrite Hhead, Hcurr, firstn_pre. fold r.
  destruct (Nat.eqb_spec (r + n) (length seg)) as [Hend|Hmid].
  - destruct post as [|post1 posts];
      cbn -[write_at firstn nth_error concat].
    + rewrite !map_app. cbn [map]. rewrite Hlen.
      split; [reflexivity|]. split; [exact Hbytes|].
      split; [|repeat split].
      rewrite concat_split, !length_app, Hlen, Hfn. cbn. lia.
    + rewrite !map_app. cbn [map]. rewrite Hlen.
      split; [reflexivity|]. split; [exact Hbytes|].
      split.
      { rewrite firstn_pre_seg, concat_app, length_app. cbn.
        rewrite app_nil_r, Hlen, Hfn. lia. }
      split; [|repeat split].
      exists post1. split; [|lia].
      change (pre ++ seg' :: post1 :: posts)
        with (pre ++ [seg'] ++ post1 :: posts).
      rewrite app_assoc.
      replace (S (length pre)) with (length (pre ++ [seg']))
        by (rewrite length_app; cbn; lia).
      apply nth_error_split_at.
  - cbn -[write_at firstn nth_error concat]. rewrite Hcurr, firstn_pre.
    rewrite !map_app. cbn [map]. rewrite Hlen.
    split; [reflexivity|]. split; [exact Hbytes|].
    split; [rewrite Hfn; lia|].
    split; [|repeat split].
    exists seg'. split; [apply nth_error_split_at | lia].
Qed.

Lemma update_packet_loop_nil (fuel : nat) (p : UartRxParser) :
  update_packet_loop fuel [] p = Some p.
Proof. destruct fuel; reflexivity. Qed.

Lemma update_packet_loop_fills (fuel : nat) :
  forall (data : list Z) (p : UartRxParser) (pre post : pbuf) (seg : list Z),
  packet_buff_head p = Some (pre ++ seg :: post) ->
  packet_buff_curr p = Some (length pre) ->
  0 <= packet_buff_read p <= Z.of_nat (length seg) ->
  Z.of_nat (length (concat (pre ++ seg :: post))) < 65536 ->
  (length (concat pre) + Z.to_nat (packet_buff_read p) + length data
   <= length (concat (pre ++ seg :: post)))%nat ->
  (length data + S (length post) <= fuel)%nat ->
  exists p', update_packet_loop fuel data p = Some p' /\ filled p data p'.
Proof.
  induction fuel as [|fuel IH];
    intros data p pre post seg Hhead Hcurr Hread Htot Hfit Hfuel; [lia|].
  assert (Hok : cursor_ok p).
  { unfold cursor_ok, chain_of. rewrite Hcurr, Hhead.
    exists seg. split; [apply nth_error_split_at | exact Hread]. }
  destruct data as [|d ds].
  { exists p. split; [reflexivity | now apply filled_nothing]. }
  pose proof (concat_split pre post seg) as Hsplit.
  apply (f_equal (@length Z)) in Hsplit. rewrite !length_app in Hsplit.
  set (r := Z.to_nat (packet_buff_read p)) in *.
  set (n := Nat.min (length seg - r) (length (d :: ds))).
  rewrite (update_packet_loop_turn fuel d ds p pre post seg Hhead Hcurr Hread)
    by lia.
  fold r n.
  assert (Hstep : filled p (firstn n (d :: ds))
                    (after_turn p pre post seg n (d :: ds)))
    by (apply after_turn_filled; auto; subst n; fold r; lia).
  assert (Hpos : packet_pos p = (length (concat pre) + r)%nat).
  { unfold packet_pos, chain_of. now rewrite Hcurr, Hhead, firstn_pre. }
  assert (Hbytes : length (packet_bytes p)
                   = length (concat (pre ++ seg :: post))).
  { unfold packet_bytes, chain_of. now rewrite Hhead. }
  assert (Hjoin : forall p',
            filled (after_turn p pre post seg n (d :: ds))
              (skipn n (d :: ds)) p' ->
            filled p (d :: ds) p').
  { intros p' H. rewrite <- (firstn_skipn n (d :: ds)).
    eapply filled_twice; [|exact Hstep|exact H].
    rewrite length_firstn, length_skipn, Hpos, Hbytes. lia. }
  destruct (Nat.eqb_spec (r + n) (length seg)) as [Hend|Hmid].
  - (* the segment is full *)
    destruct post as [|post1 posts].
    + (* it was the last one *)
      assert (Hrest : skipn n (d :: ds) = []).
      { apply skipn_all2. cbn [length] in Hfit |- *.
        rewrite Hsplit in Hfit. cbn [concat length] in Hfit. lia. }
      rewrite Hrest in *. eexists.
      split; [apply update_packet_loop_nil|].
      apply Hjoin. apply filled_nothing.
      destruct Hstep as (_ & _ & _ & H & _). exact H.
    + set (seg' := write_at seg r (firstn n (d :: ds))).
      assert (Hlen : length seg' = length seg).
      { apply write_at_length. rewrite length_firstn. subst n. lia. }
      assert (Hat : after_turn p pre (post1 :: posts) seg n (d :: ds)
                    = set_packet_buff_read 0
                        (set_packet_buff_curr (Some (S (length pre)))
                           (set_packet_buff_read (Z.of_nat (r + n))
                              (set_packet_buff_head
                                 (Some (pre ++ seg' :: post1 :: posts)) p)))).
      { unfold after_turn. cbv zeta. fold r seg'.
        destruct (Nat.eqb_spec (r + n) (length seg)); [reflexivity | lia]. }
      destruct (IH (skipn n (d :: ds))
                  (after_turn p pre (post1 :: posts) seg n (d :: ds))
                  (pre ++ [seg']) posts post1)
        as (p' & Hrun & Hfilled).
      * rewrite Hat. cbn. now rewrite <- app_assoc.
      * rewrite Hat. cbn. f_equal. rewrite length_app. cbn. lia.
      * rewrite Hat. cbn. lia.
      * rewrite <- app_assoc. cbn [app].
        rewrite concat_split, !length_app, Hlen.
        rewrite concat_split, !length_app in Htot. lia.
      * rewrite Hat. cbn [packet_buff_read set_packet_buff_read].
        rewrite <- app_assoc. cbn [app].
        rewrite concat_app, !length_app, concat_split, !length_app.
        cbn [concat length]. rewrite app_nil_r, Hlen, length_skipn.
        rewrite concat_split, !length_app in Hfit.
        cbn [length concat] in *. lia.
      * rewrite length_skipn. cbn [length] in *. lia.
      * exists p'. split; [exact Hrun | now apply Hjoin].
  - (* the data ends inside the segment *)
    assert (Hrest : skipn n (d :: ds) = []).
    { apply skipn_all2. subst n. lia. }
    rewrite Hrest in *. eexists.
      split; [apply update_packet_loop_nil|].
    apply Hjoin. apply filled_nothing.
    destruct Hstep as (_ & _ & _ & H & _). exact H.
Qed.

(** What update_packet does when the bytes fit. *)
Lemma update_packet_writes (data : list Z) (p : UartRxParser) :
  Z.of_nat (length (packet_bytes p)) < 65536 ->
  cursor_ok p ->
  (packet_pos p + length data <= length (packet_bytes p))%nat ->
  exists p', update_packet data p = Some p' /\ filled p data p'.
Proof.
  intros Htot Hok Hfit. unfold update_packet.
  destruct (packet_buff_curr p) as [i|] eqn:Hcurr.
  - pose proof Hok as Hok'. unfold cursor_ok in Hok'. rewrite Hcurr in Hok'.
    destruct Hok' as (seg & Hnth & Hread).
    destruct (nth_error_split _ _ Hnth) as (pre & post & Hchain & Hi).
    assert (Hhead : packet_buff_head p = Some (pre ++ seg :: post)).
    { unfold chain_of in Hchain. destruct (packet_buff_head p).
      - now rewrite Hchain.
      - destruct pre; discriminate Hchain. }
    subst i.
    apply (update_packet_loop_fills _ data p pre post seg); auto.
    + unfold packet_bytes in Htot. now rewrite Hchain in Htot.
    + unfold packet_pos, packet_bytes in Hfit.
      rewrite Hcurr, Hchain, firstn_pre in Hfit. exact Hfit.
    + rewrite Hchain, length_app. cbn. lia.
  - assert (Hnil : data = []).
    { unfold packet_pos in Hfit. rewrite Hcurr in Hfit.
      destruct data; [reflexivity | cbn in Hfit; lia]. }
    subst data. exists p.
    split; [apply update_packet_loop_nil | now apply filled_nothing].
Qed.

(** X17.  update_packet copies the bytes it is given into the packet buffer
    at the write cursor, whatever the boundaries of the segments: when the
    cursor is in order and the bytes fit behind it, the call is defined,
    the bytes of the packet are overwritten from the cursor on by exactly
    the data, nothing before or behind them changes, no segment changes its
    size, and the cursor ends up right behind what was written. *)
Theorem update_packet_fills (data : list Z) (p : UartRxParser) :
  Z.of_nat (length (packet_bytes p)) < 65536 ->
  cursor_ok p ->
  (packet_pos p + length data <= length (packet_bytes p))%nat ->
  exists p', update_packet data p = Some p' /\ filled p data p'.
Proof. exact (update_packet_writes data p). Qed.

Lemma update_packet_fills_witness :
  exists p',
    update_packet [1; 2; 3; 4; 5] fresh_packet = Some p'
    /\ packet_buff_head p' = Some [[1; 2; 3]; []; [4; 5; 0; 0]]
    /\ packet_pos p' = 5%nat.
Proof.
  destruct (update_packet_fills [1; 2; 3; 4; 5] fresh_packet)
    as (p' & Hrun & _ & _ & Hpos & _).
  - cbn. lia.
  - unfold cursor_ok. cbn. exists [0; 0; 0]. split; [reflexivity | lia].
  - cbn. lia.
  - exists p'. split; [exact Hrun|].
    vm_compute in Hrun. injection Hrun as <-.
    split; reflexivity.
Defined.

(** X18.  A payload arrives whole however it is cut: after start_packet got
    a chain for the announced size, feeding the payload to update_packet in
    two pieces, cut anywhere, leaves the chain holding exactly the payload,
    segment sizes as allocated, and the message being parsed untouched. *)
Theorem packet_reassembled_from_chunks
    (pbuf_alloc_rx : Z -> option pbuf) (p : UartRxParser) (chain : pbuf)
    (a b : list Z) :
  pbuf_alloc_rx (size (header (msg p))) = Some chain ->
  chain <> [] ->
  length (concat chain) = length (a ++ b) ->
  Z.of_nat (length (a ++ b)) < 65536 ->
  fst (start_packet pbuf_alloc_rx p) = true
  /\ exists p1 p2,
       update_packet a (snd (start_packet pbuf_alloc_rx p)) = Some p1
       /\ update_packet b p1 = Some p2
       /\ packet_bytes p2 = a ++ b
       /\ map (@length Z) (chain_of p2) = map (@length Z) chain
       /\ msg p2 = msg p.
Proof.
  intros Halloc Hne Hlen Hbound. unfold start_packet. rewrite Halloc.
  cbn [fst snd]. split; [reflexivity|].
  set (p0 := set_packet_buff_curr (Some 0%nat)
               (set_packet_buff_read 0
                  (set_packet_buff_head (Some chain) p))).
  assert (Hbytes0 : packet_bytes p0 = concat chain) by reflexivity.
  assert (Hpos0 : packet_pos p0 = 0%nat) by reflexivity.
  assert (Hok0 : cursor_ok p0).
  { unfold cursor_ok. cbn. destruct chain as [|seg chain]; [now elim Hne|].
    exists seg. cbn. split; [reflexivity | lia]. }
  rewrite length_app in Hlen, Hbound.
  destruct (update_packet_writes a p0) as (p1 & Hrun1 & Hf1);
    [rewrite Hbytes0; lia | exact Hok0 | rewrite Hbytes0, Hpos0; lia |].
  destruct Hf1 as (Hl1 & Hb1 & Hp1 & Hok1 & Hm1 & _).
  assert (Hlen1 : length (packet_bytes p1) = length (concat chain)).
  { rewrite Hb1, Hbytes0, Hpos0. apply write_at_length. lia. }
  destruct (update_packet_writes b p1) as (p2 & Hrun2 & Hf2);
    [rewrite Hlen1; lia | exact Hok1 | rewrite Hlen1, Hp1, Hpos0; lia |].
  destruct Hf2 as (Hl2 & Hb2 & _ & _ & Hm2 & _).
  exists p1, p2. split; [exact Hrun1|]. split; [exact Hrun2|].
  split.
  - rewrite Hb2, Hb1, Hp1, Hbytes0, Hpos0.
    rewrite write_at_twice by lia.
    unfold write_at. cbn [firstn app Nat.add].
    rewrite skipn_all2 by (rewrite length_app; lia). apply app_nil_r.
  - split; [rewrite Hl2, Hl1; reflexivity|]. now rewrite Hm2, Hm1.
Qed.

Lemma packet_reassembled_from_chunks_witness :
  exists p1 p2,
    update_packet [1; 2]
      (snd (start_packet (fun _ => Some [[0; 0; 0]; [0; 0]])
              (uart_rx_parser packet_received))) = Some p1
    /\ update_packet [3; 4; 5] p1 = Some p2
    /\ packet_bytes p2 = [1; 2; 3; 4; 5].
Proof.
  destruct (packet_reassembled_from_chunks
              (fun _ => Some [[0; 0; 0]; [0; 0]])
              (uart_rx_parser packet_received) [[0; 0; 0]; [0; 0]]
              [1; 2] [3; 4; 5])
    as (_ & p1 & p2 & H1 & H2 & Hb & _);
    [reflexivity | discriminate | reflexivity | cbn; lia |].
  exists p1, p2. auto.
Defined.

(** ** The reported link state *)

(** X19.  On a running, associated link the reported link state tells
    whether a valid message came in since the last health check: right
    after espif_tick it is Silent, and the next message whose checksum
    matches makes it Up again. *)
Theorem link_state_follows_traffic (st : State) :
  esp_operating_mode st = ESPIF_RUNNING_MODE ->
  associated st = true ->
  checksum_valid (uart_rx_parser st) = true ->
  let ticked := snd (espif_tick st) in
  esp_link_state ticked = EspLinkState.Silent
  /\ esp_link_state (snd (validate_checksum ticked)) = EspLinkState.Up
  /\ esp_link_state (snd (process_scan_ap_count ticked)) = EspLinkState.Up.
Proof.
  intros Hmode Hassoc Hvalid. cbn zeta. rewrite espif_tick_eq. cbn zeta.
  rewrite Hassoc, Hmode. cbn [snd is_running andb].
  unfold esp_link_state, process_scan_ap_count, validate_checksum, bind, load,
    when, store, ret.
  destruct (0 <? init_countdown st); destruct (seen_rx_packet st);
    cbn -[fill_prelude]; rewrite ?Hmode, ?Hassoc, ?Hvalid;
    cbn -[fill_prelude]; rewrite ?Hmode, ?Hassoc; repeat split.
Qed.

Lemma link_state_follows_traffic_witness :
  let st := set_uart_rx_parser (uart_rx_parser packet_received)
              link_with_traffic in
  esp_link_state st = EspLinkState.Up
  /\ esp_link_state (snd (espif_tick st)) = EspLinkState.Silent.
Proof.
  cbn zeta. split; [reflexivity|].
  destruct (link_state_follows_traffic
              (set_uart_rx_parser (uart_rx_parser packet_received)
                 link_with_traffic) eq_refl eq_refl eq_refl) as (H & _).
  exact H.
Defined.

(** ** A link that comes up during a scan *)

(** X20.  While a scan is running a link-up is recorded in [associated] and
    reported to the IP stack, but the operating mode stays Scanning; a
    successful stop then restores the mode saved at the start, not Running,
    and it is the next link-up after the scan that moves the mode to
    Running. *)
Theorem link_up_during_scan (st : State) :
  let st1 := snd (scan.start st) in
  let st2 := snd (process_link_change true st1) in
  let st3 := snd (scan.stop st2) in
  fst (scan.start st) = ERR_OK ->
  fst (scan.stop st2) = ERR_OK ->
  cas_weak_fails (env st) (S (S (length (uart_tx_log st)))) = false ->
  esp_operating_mode st2 = ESPIF_SCANNING_MODE
  /\ associated st2 = true
  /\ netif_log st2
     = netif_log st ++ link_notification (associated st) true
  /\ esp_operating_mode st3 = esp_operating_mode st
  /\ associated st3 = true
  /\ esp_operating_mode (snd (process_link_change true st3))
     = ESPIF_RUNNING_MODE.
Proof.
  intros st1 st2 st3 Hstart Hstop Hcas.
  destruct (scan_start_succeeded st Hstart) as (Hrun1 & Hpre1 & Hmode1).
  fold st1 in Hrun1, Hpre1, Hmode1.
  assert (Hlog1 : uart_tx_log st1
                  = uart_tx_log st
                    ++ [(TxPrelude
                           (fill_prelude (env st) (tx_message st) SCAN_START
                              0 []), next_tx_result st)]
                  /\ env st1 = env st /\ netif_log st1 = netif_log st
                  /\ associated st1 = associated st).
  { subst st1. rewrite scan_start_eq. cbn [snd].
    destruct (is_HAL_OK (next_tx_result st)); cbn -[fill_prelude];
      repeat split. }
  destruct Hlog1 as (Hlog1 & Henv1 & Hnet1 & Hassoc1).
  assert (H2 : esp_operating_mode st2 = esp_operating_mode st1
               /\ associated st2 = true
               /\ scan st2 = scan st1
               /\ env st2 = env st1
               /\ uart_tx_log st2 = uart_tx_log st1
               /\ netif_log st2
                  = netif_log st1 ++ link_notification (associated st1) true).
  { subst st2.
    unfold process_link_change, bind, load, when, store, exchange_associated,
      netif_call, ret.
    rewrite Hrun1. cbn. destruct (associated st1); cbn;
      rewrite ?app_nil_r; repeat split. }
  destruct H2 as (Hmode2 & Hassoc2 & Hscan2 & Henv2 & Hlog2 & Hnet2).
  assert (Hrun2 : ScanData.is_running (scan st2) = true)
    by (rewrite Hscan2; exact Hrun1).
  assert (H3 : esp_operating_mode st3 = esp_operating_mode st
               /\ associated st3 = true
               /\ ScanData.is_running (scan st3) = false).
  { subst st3. rewrite scan_stop_eq, Hrun2 in Hstop |- *.
    cbn [fst snd] in Hstop |- *.
    rewrite (err_ok_is_HAL_OK _ Hstop).
    unfold compare_exchange_weak. cbn -[fill_prelude].
    rewrite Hmode2, Hmode1, Hscan2, Hpre1, Henv2, Henv1, Hlog2, Hlog1.
    rewrite !length_app. cbn [length].
    replace (length (uart_tx_log st) + 1 + 1)%nat
      with (S (S (length (uart_tx_log st)))) by lia.
    destruct (mode_eq_dec ESPIF_SCANNING_MODE ESPIF_SCANNING_MODE);
      [|contradiction].
    rewrite Hcas. cbn. repeat split; assumption. }
  destruct H3 as (Hmode3 & Hassoc3 & Hrun3).
  split; [rewrite Hmode2; exact Hmode1|]. split; [exact Hassoc2|].
  split; [rewrite Hnet2, Hnet1, Hassoc1; reflexivity|].
  split; [exact Hmode3|]. split; [exact Hassoc3|].
  unfold process_link_change, bind, load, when, store, exchange_associated,
    netif_call, ret.
  rewrite Hrun3. cbn. destruct (associated st3); reflexivity.
Qed.

Lemma link_up_during_scan_witness :
  let st := sample_state ESPIF_CONNECTING_AP in
  let st3 := snd (scan.stop (snd (process_link_change true
                                    (snd (scan.start st))))) in
  esp_operating_mode st3 = ESPIF_CONNECTING_AP
  /\ associated st3 = true
  /\ esp_link_state st3 = EspLinkState.NoAp.
Proof.
  cbn zeta.
  destruct (link_up_during_scan (sample_state ESPIF_CONNECTING_AP)
              eq_refl eq_refl eq_refl) as (_ & _ & _ & Hmode & Hassoc & _).
  split; [exact Hmode|]. split; [exact Hassoc|].
  unfold esp_link_state. rewrite Hmode. reflexivity.
Defined.
